(** * MaskGIT / VQGAN tokenizer ([mask_git/networks.py]): a shallow embedding

    The development follows the Python module top to bottom:

    - a [Scalar] interface for the element type of a [jnp] array, with an
      IEEE-754 binary32 instance ([jnp.float32], the [dtype] default of every
      module in the file, through [SpecFloat]) and an exact rational
      instance;
    - the [jax.numpy] operations the quantizer calls ([argmin], [one_hot],
      [dot], [take], [mean]) on arrays seen as a leading shape and the list
      of their last-axis vectors;
    - the order in which [mean] adds its terms, which XLA leaves open, as a
      parameter ([Reduction]);
    - [VectorQuantizer], with its result dictionary as a [gmap];
    - [ResBlock], [Encoder], [Decoder] over abstract layer capabilities;
    - [VQVAE], over a quantizer interface.

    The functions of the modules [losses], [layers] and [quantizers], which
    [networks.py] imports, are parameters; where a statement is about the
    distance itself, [losses.squared_euclidean_distance] is modelled from
    the spec.  The statements that depend on
    arithmetic are proved from small classes of laws, each of which
    binary32 satisfies; what rounding breaks is shown by evaluation in
    binary32.

    Theorems come after all definitions. *)

From Stdlib Require Import ZArith QArith Qcanon Bool List Lia.
From Stdlib Require Import Floats.SpecFloat.
From stdpp Require Import base list gmap strings.

Local Open Scope Z_scope.

(* ===================================================================== *)
(** ** Scalars: the element type of an array *)
(* ===================================================================== *)

(** The operations [networks.py] performs on array elements.  [rofZ]
    converts a Python integer (a count, the numerator or denominator of a
    literal) to the dtype; [ris_finite] is [jnp.isfinite]. *)
Class Scalar (R : Type) := {
  r0 : R;
  r1 : R;
  radd : R -> R -> R;
  rsub : R -> R -> R;
  rmul : R -> R -> R;
  rdiv : R -> R -> R;
  ropp : R -> R;
  rltb : R -> R -> bool;
  rleb : R -> R -> bool;
  reqb : R -> R -> bool;
  rofZ : Z -> R;
  ris_finite : R -> bool;
  r_eq_dec :: EqDecision R
}.

(** Floating dtypes have a NaN, which [jnp.take] writes for an index that is
    out of bounds. *)
Class Inexact (R : Type) := { rnan : R }.

(** *** binary32 *)

Module F32.
Definition prec : Z := 24.
Definition emax : Z := 128.

Definition t : Type := spec_float.

Definition of_Z (z : Z) : t := binary_normalize prec emax z 0 false.

Definition is_finite (x : t) : bool :=
  match x with
  | S754_zero _ | S754_finite _ _ _ => true
  | S754_infinity _ | S754_nan => false
  end.

Definition isnan (x : t) : bool :=
  match x with S754_nan => true | _ => false end.

#[global] Instance eq_dec : EqDecision t.
Proof. solve_decision. Defined.

#[global] Instance scalar : Scalar t := {|
  r0 := S754_zero false;
  r1 := of_Z 1;
  radd := SFadd prec emax;
  rsub := SFsub prec emax;
  rmul := SFmul prec emax;
  rdiv := SFdiv prec emax;
  ropp := SFopp;
  rltb := SFltb;
  rleb := SFleb;
  reqb := SFeqb;
  rofZ := of_Z;
  ris_finite := is_finite
|}.

#[global] Instance inexact : Inexact t := {| rnan := S754_nan |}.

(** A binary32 datum: canonical mantissa and exponent in range. *)
Definition valid (x : t) : bool := valid_binary prec emax x.

(** Finite, valid, and not the negative zero. *)
Definition is_regular (x : t) : bool :=
  match x with
  | S754_zero s => negb s
  | S754_finite _ m e => bounded prec emax m e
  | S754_infinity _ | S754_nan => false
  end.

(** The sign a rounded result carries. *)
Definition has_sign (s : bool) (x : t) : Prop :=
  match x with
  | S754_zero s' | S754_infinity s' | S754_finite s' _ _ => s' = s
  | S754_nan => False
  end.

(** The order of [SFcompare] is lexicographic in this key. *)
Definition rank (x : t) : Z * Z * Z :=
  match x with
  | S754_nan => (0, 0, 0)
  | S754_zero _ => (0, 0, 0)
  | S754_infinity true => (-2, 0, 0)
  | S754_infinity false => (2, 0, 0)
  | S754_finite true m e => (-1, - e, - Zpos m)
  | S754_finite false m e => (1, e, Zpos m)
  end.

Definition lex_lt (a b : Z * Z * Z) : Prop :=
  let '(a1, a2, a3) := a in
  let '(b1, b2, b3) := b in
  a1 < b1 \/ (a1 = b1 /\ (a2 < b2 \/ (a2 = b2 /\ a3 < b3))).
End F32.

(** *** Exact rationals *)

Module Exact.
Definition ltb (a b : Qc) : bool :=
  match (a ?= b)%Qc with Lt => true | _ => false end.
Definition leb (a b : Qc) : bool :=
  match (a ?= b)%Qc with Gt => false | _ => true end.
Definition eqb (a b : Qc) : bool :=
  match (a ?= b)%Qc with Eq => true | _ => false end.

#[global] Instance scalar : Scalar Qc := {|
  r0 := 0%Qc;
  r1 := 1%Qc;
  radd := Qcplus;
  rsub := Qcminus;
  rmul := Qcmult;
  rdiv := Qcdiv;
  ropp := Qcopp;
  rltb := ltb;
  rleb := leb;
  reqb := eqb;
  rofZ := fun z => Q2Qc (inject_Z z);
  ris_finite := fun _ => true
|}.
End Exact.

(* ===================================================================== *)
(** ** Arrays and the [jax.numpy] operations of the quantizer *)
(* ===================================================================== *)

(** An array of rank at least one, as the quantizer sees it: the shape is
    [lead ++ [chan]] and [rows] lists the last-axis vectors in row-major
    order, i.e. [rows] is [jnp.reshape(x, (-1, x.shape[-1]))]. *)
Record tensor (R : Type) := Tensor {
  lead : list nat;
  chan : nat;
  rows : list (list R)
}.
Arguments Tensor {R} _ _ _.
Arguments lead {R} _.
Arguments chan {R} _.
Arguments rows {R} _.

(** An integer array: its shape and its entries in row-major order. *)
Record itensor := ITensor {
  ishape : list nat;
  ivals : list Z
}.

Definition numel (shape : list nat) : nat := fold_right Nat.mul 1%nat shape.

Definition shape_of {R} (x : tensor R) : list nat := lead x ++ [chan x].

(** Shape discipline of a well-formed array. *)
Definition wf_tensor {R} (x : tensor R) : Prop :=
  length (rows x) = numel (lead x) /\
  Forall (fun r => length r = chan x) (rows x).

Definition wf_matrix {R} (rws cls : nat) (m : list (list R)) : Prop :=
  length m = rws /\ Forall (fun r => length r = cls) m.

(** The order of a reduction.  XLA leaves it open: the entries of the
    array are added in some binary tree, each entry once, and the initial
    value 0 may enter anywhere.  A leaf [Leaf i] is entry [i]; [Init] is
    the initial value. *)
Inductive sum_tree :=
| Init
| Leaf (i : nat)
| Node (a b : sum_tree).

Fixpoint leaves (t : sum_tree) : list nat :=
  match t with
  | Init => []
  | Leaf i => [i]
  | Node a b => leaves a ++ leaves b
  end.

(** The order the backend reduces an array of [n] entries of dtype [R]
    in. *)
Class Reduction (R : Type) := {
  sum_plan : nat -> sum_tree;
  sum_plan_covers : forall n : nat, leaves (sum_plan n) ≡ₚ seq 0 n
}.
Arguments sum_plan R {_} _.

(** Adding from the left, starting at the initial value. *)
Definition left_plan (n : nat) : sum_tree :=
  fold_left (fun t i => Node t (Leaf i)) (seq 0 n) Init.

(** Every scalar operation below is one operation of the dtype (in
    binary32, one correctly rounded IEEE operation).  [jnp_sum], the
    reduction of [jnp.mean], adds in the order of the backend; [rsum] and
    [dot_row] add from the left, starting at zero. *)
Section Numpy.
Context {R : Type} `{Scalar R}.

Definition is_nan (v : R) : bool := negb (reqb v v).

(** A Python float literal [n/d] in the dtype. *)
Definition rofQ (q : Q) : R := rdiv (rofZ (Qnum q)) (rofZ (Zpos (Qden q))).

(** [jnp.sum] of a flat list. *)
Definition rsum (l : list R) : R := fold_left radd l r0.

(** [jnp.argmin] along an axis: the first index of the minimum, a NaN
    counting as smaller than every number. [best] is the running minimum,
    found at [besti]; [i] is the index of the head of [l]. *)
Definition argmin_pick (v best : R) : bool :=
  rltb v best || (is_nan v && negb (is_nan best)).

Fixpoint argmin_from (best : R) (besti i : nat) (l : list R) : nat :=
  match l with
  | [] => besti
  | v :: l' =>
      if argmin_pick v best
      then argmin_from v i (S i) l'
      else argmin_from best besti (S i) l'
  end.

Definition argmin (l : list R) : nat :=
  match l with
  | [] => 0%nat
  | v :: l' => argmin_from v 0 1 l'
  end.

Definition jnp_argmin (d : tensor R) : itensor :=
  ITensor (lead d) (map (fun r => Z.of_nat (argmin r)) (rows d)).

(** [jax.nn.one_hot(i, num_classes)]: [i == arange(num_classes)] in the
    dtype; an index outside the range gives the zero vector. *)
Definition one_hot_row (num_classes : nat) (i : Z) : list R :=
  map (fun k => if Z.eqb i (Z.of_nat k) then r1 else r0) (seq 0 num_classes).

Definition one_hot (ids : itensor) (num_classes : nat) : tensor R :=
  Tensor (ishape ids) num_classes (map (one_hot_row num_classes) (ivals ids)).

(** [jnp.dot(z, m)] for a 2-D [m]: contraction of the last axis of [z]
    with the first axis of [m]. *)
Definition width (m : list (list R)) : nat :=
  match m with [] => 0%nat | r :: _ => length r end.

Definition column (j : nat) (m : list (list R)) : list R :=
  map (fun r => nth j r r0) m.

Definition dot_row (z : list R) (m : list (list R)) : list R :=
  map (fun j => rsum (zip_with rmul z (column j m))) (seq 0 (width m)).

Definition jnp_dot (z : tensor R) (m : list (list R)) : tensor R :=
  Tensor (lead z) (width m) (map (fun r => dot_row r m) (rows z)).

(** Elementwise operations on arrays of one shape. *)
Definition tmap (f : R -> R) (x : tensor R) : tensor R :=
  Tensor (lead x) (chan x) (map (map f) (rows x)).

Definition tzip (f : R -> R -> R) (x y : tensor R) : tensor R :=
  Tensor (lead x) (chan x) (zip_with (zip_with f) (rows x) (rows y)).

Definition tadd := tzip radd.
Definition tsub := tzip rsub.
Definition tneg := tmap ropp.
(** [x ** 2] is [lax.integer_pow(x, 2)], the product [x * x]. *)
Definition tsquare := tmap (fun v => rmul v v).

Definition flat (x : tensor R) : list R := concat (rows x).

(** [jnp.sum] of all entries, added as the reduction tree [t] says. *)
Fixpoint tree_sum (t : sum_tree) (l : list R) : R :=
  match t with
  | Init => r0
  | Leaf i => nth i l r0
  | Node a b => radd (tree_sum a l) (tree_sum b l)
  end.

Definition jnp_sum `{!Reduction R} (l : list R) : R :=
  tree_sum (sum_plan R (length l)) l.

(** [jnp.mean]: the sum of all entries over their count. *)
Definition jnp_mean `{!Reduction R} (x : tensor R) : R :=
  rdiv (jnp_sum (flat x)) (rofZ (Z.of_nat (length (flat x)))).

(** [jax.lax.stop_gradient] is the identity on values. *)
Definition stop_gradient (x : tensor R) : tensor R := x.

(** [jnp.take(m, ids, axis=0)] with the default [mode=None], which is
    "fill": a negative index is shifted by the axis size once, and an
    index still out of bounds yields the fill value, NaN for an inexact
    dtype. *)
Definition take_row `{Inexact R} (m : list (list R)) (i : Z) : list R :=
  let n := Z.of_nat (length m) in
  let i' := if Z.ltb i 0 then i + n else i in
  if Z.leb 0 i' && Z.ltb i' n
  then nth (Z.to_nat i') m []
  else repeat rnan (width m).

Definition jnp_take `{Inexact R} (m : list (list R)) (ids : itensor) : tensor R :=
  Tensor (ishape ids) (width m) (map (take_row m) (ivals ids)).
End Numpy.

(* ===================================================================== *)
(** ** The [losses] module *)
(* ===================================================================== *)

(** [networks.py] imports [losses] and calls two of its functions; their
    source is not part of this file, so they are taken as given:
    [squared_euclidean_distance a b] on an [N x C] and a [K x C] matrix, and
    [entropy_loss logits loss_type temperature]. *)
Record losses_module (R : Type) := {
  squared_euclidean_distance : list (list R) -> list (list R) -> list (list R);
  entropy_loss : tensor R -> string -> Q -> R
}.
Arguments squared_euclidean_distance {R} _ _ _.
Arguments entropy_loss {R} _ _ _ _.

(** What the reshape of the distance matrix to [x.shape[:-1] + (K,)]
    requires of [squared_euclidean_distance]: one row per input vector, one
    column per codebook entry. *)
Definition sed_shape {R} (L : losses_module R) : Prop :=
  forall a b : list (list R),
    wf_matrix (length a) (length b) (squared_euclidean_distance L a b).

(** Modelled from the spec: [losses.squared_euclidean_distance] computes the
    squared Euclidean distance from every vector to every codebook entry
    (section 4.4, step 2); its source is missing. *)
Definition sqdist {R} `{Scalar R} (u v : list R) : R :=
  rsum (zip_with (fun a b => rmul (rsub a b) (rsub a b)) u v).

Definition all_pairs_sqdist {R} `{Scalar R} (a b : list (list R)) : list (list R) :=
  map (fun u => map (sqdist u) b) a.

(** A [losses] module whose distance function is the one modelled from the
    spec. *)
Definition sed_spec {R} `{Scalar R} (L : losses_module R) : Prop :=
  forall a b : list (list R),
    squared_euclidean_distance L a b = all_pairs_sqdist a b.

(* ===================================================================== *)
(** ** [class VectorQuantizer] *)
(* ===================================================================== *)

(** A value stored in the result dictionary. *)
Inductive value (R : Type) :=
| VScalar (r : R)
| VTensor (x : tensor R)
| VIndices (ids : itensor).
Arguments VScalar {R} _.
Arguments VTensor {R} _.
Arguments VIndices {R} _.

Module VectorQuantizer.
(** The module attributes and its one parameter, [codebook], of shape
    [(codebook_size, x.shape[-1])].  [dtype] is the scalar type [R];
    [jnp.asarray(_, dtype)] is then the identity. *)
Record self (R : Type) := {
  train : bool;
  codebook : list (list R)
}.
Arguments train {R} _.
Arguments codebook {R} _.

Definition codebook_size : nat := 1024.
Definition commitment_cost : Q := 0.25.
Definition entropy_loss_ratio : Q := 0.1.
Definition entropy_temperature : Q := 0.01.
Definition entropy_loss_type : string := "softmax".

Section Methods.
Context {R : Type} `{Scalar R} `{Inexact R} `{!Reduction R}.
Variable losses : losses_module R.

Definition quantize (s : self R) (z : tensor R) : tensor R :=
  jnp_dot z (codebook s).

Definition get_codebook (s : self R) : list (list R) := codebook s.

Definition decode_ids (s : self R) (ids : itensor) : tensor R :=
  jnp_take (codebook s) ids.

(** The locals of [__call__] up to line 176. *)
Definition distances (s : self R) (x : tensor R) : tensor R :=
  Tensor (lead x) codebook_size
    (squared_euclidean_distance losses (rows x) (codebook s)).

Definition encoding_indices (s : self R) (x : tensor R) : itensor :=
  jnp_argmin (distances s x).

Definition encodings (s : self R) (x : tensor R) : tensor R :=
  one_hot (encoding_indices s x) codebook_size.

Definition quantized (s : self R) (x : tensor R) : tensor R :=
  quantize s (encodings s x).

(** The training branch, lines 179 to 196. *)
Definition e_latent_loss (s : self R) (x : tensor R) : R :=
  rmul (jnp_mean (tsquare (tsub (stop_gradient (quantized s x)) x)))
       (rofQ commitment_cost).

Definition q_latent_loss (s : self R) (x : tensor R) : R :=
  jnp_mean (tsquare (tsub (quantized s x) (stop_gradient x))).

Definition entropy_loss_term (s : self R) (x : tensor R) : R :=
  if negb (Qeq_bool entropy_loss_ratio 0)
  then rmul (entropy_loss losses (tneg (distances s x))
               entropy_loss_type entropy_temperature)
            (rofQ entropy_loss_ratio)
  else r0.

Definition loss (s : self R) (x : tensor R) : R :=
  radd (radd (e_latent_loss s x) (q_latent_loss s x)) (entropy_loss_term s x).

(** Line 202. *)
Definition straight_through (s : self R) (x : tensor R) : tensor R :=
  tadd x (stop_gradient (tsub (quantized s x) x)).

Definition call (s : self R) (x : tensor R)
  : tensor R * gmap string (value R) :=
  let result_dict : gmap string (value R) :=
    if train s
    then <["entropy_loss" := VScalar (entropy_loss_term s x)]>
         (<["q_latent_loss" := VScalar (q_latent_loss s x)]>
         (<["e_latent_loss" := VScalar (e_latent_loss s x)]>
         (<["quantizer_loss" := VScalar (loss s x)]> ∅)))
    else ∅ in
  let quantized := if train s then straight_through s x else quantized s x in
  (quantized,
   <["raw" := VTensor x]>
   (<["encoding_indices" := VIndices (encoding_indices s x)]>
   (<["encodings" := VTensor (encodings s x)]> result_dict))).
End Methods.
End VectorQuantizer.

(* ===================================================================== *)
(** ** Layer capabilities: [flax.linen] and the [layers] module *)
(* ===================================================================== *)

(** A flax module instance owns its parameters; two layers built with the
    same hyper-parameters are different functions. An instance is told
    apart by its [scope]: the creation indices from the root module down. *)
Definition scope : Type := list nat.

(** The layers [networks.py] builds but does not define, over an abstract
    array type [T]:
    [conv sc features kernel_size strides use_bias] is
    [nn.Conv(features, kernel_size, strides, use_bias)] (padding "SAME");
    [get_norm_layer train norm_type sc] is an instance of the class
    [layers.get_norm_layer(train, dtype, norm_type)] returns;
    [dsample] and [upsample] are [layers.dsample] and [layers.upsample]. *)
Record layers_module (T : Type) := {
  shape : T -> list nat;
  add : T -> T -> T;
  conv : scope -> nat -> nat * nat -> nat * nat -> bool -> T -> T;
  get_norm_layer : bool -> string -> scope -> T -> T;
  relu : T -> T;
  swish : T -> T;
  sigmoid : T -> T;
  dsample : T -> T;
  upsample : T -> nat -> T
}.
Arguments shape {T} _ _.
Arguments add {T} _ _ _.
Arguments conv {T} _ _ _ _ _ _ _.
Arguments get_norm_layer {T} _ _ _ _ _.
Arguments relu {T} _ _.
Arguments swish {T} _ _.
Arguments sigmoid {T} _ _.
Arguments dsample {T} _ _.
Arguments upsample {T} _ _ _.

(* ===================================================================== *)
(** ** [class ResBlock] *)
(* ===================================================================== *)

Module ResBlock.
Record self (T : Type) := {
  filters : nat;
  norm_fn : scope -> T -> T;
  conv_fn : scope -> nat -> nat * nat -> nat * nat -> bool -> T -> T;
  activation_fn : T -> T;
  use_conv_shortcut : bool
}.
Arguments filters {T} _.
Arguments norm_fn {T} _ _ _.
Arguments conv_fn {T} _ _ _ _ _ _ _.
Arguments activation_fn {T} _ _.
Arguments use_conv_shortcut {T} _.

Section Methods.
Context {T : Type}.
Variable nn : layers_module T.

(** The value of [x] after line 50: the transformed branch. *)
Definition branch (s : self T) (sc : scope) (x : T) : T :=
  let x := norm_fn s (sc ++ [0%nat]) x in
  let x := activation_fn s x in
  let x := conv_fn s (sc ++ [0%nat]) (filters s) (3, 3)%nat (1, 1)%nat false x in
  let x := norm_fn s (sc ++ [1%nat]) x in
  let x := activation_fn s x in
  conv_fn s (sc ++ [1%nat]) (filters s) (3, 3)%nat (1, 1)%nat false x.

Definition call (s : self T) (sc : scope) (x : T) : T :=
  let input_dim := List.last (shape nn x) 0%nat in
  let residual := x in
  let x := branch s sc x in
  let residual :=
    if negb (Nat.eqb input_dim (filters s)) then
      if use_conv_shortcut s then
        conv_fn s (sc ++ [2%nat]) (filters s) (3, 3)%nat (1, 1)%nat false x
      else
        conv_fn s (sc ++ [2%nat]) (filters s) (1, 1)%nat (1, 1)%nat false x
    else residual in
  add nn x residual.
End Methods.
End ResBlock.

(** The loop [for _ in range(n): x = ResBlock(filters, **block_args)(x)];
    the blocks are the instances [first], [first + 1], ... of the
    enclosing module. *)
Fixpoint res_blocks {T} (nn : layers_module T) (block : ResBlock.self T)
    (sc : scope) (n first : nat) (x : T) : T :=
  match n with
  | O => x
  | S n' => res_blocks nn block sc n' (S first)
              (ResBlock.call nn block (sc ++ [first]) x)
  end.

(** The state a stage loop carries: the array, the Python local [filters],
    and the numbers of ResBlock and Conv instances created so far. *)
Record loop_state (T : Type) := LoopState {
  cur : T;
  cur_filters : nat;
  n_res : nat;
  n_conv : nat
}.
Arguments LoopState {T} _ _ _ _.
Arguments cur {T} _.
Arguments cur_filters {T} _.
Arguments n_res {T} _.
Arguments n_conv {T} _.

(* ===================================================================== *)
(** ** [class Encoder] *)
(* ===================================================================== *)

Module Encoder.
Record self := { train : bool }.

(** [setup]. *)
Definition filters : nat := 128.
Definition num_res_blocks : nat := 2.
Definition channel_multipliers : list nat := [1; 1; 2; 2; 4]%nat.
Definition embedding_dim : nat := 10.
Definition conv_downsample : bool := false.
Definition norm_type : string := "GN".

Section Methods.
Context {T : Type}.
Variable nn : layers_module T.

Definition block_args (s : self) (filters : nat) : ResBlock.self T :=
  {| ResBlock.filters := filters;
     ResBlock.norm_fn := get_norm_layer nn (train s) norm_type;
     ResBlock.conv_fn := conv nn;
     ResBlock.activation_fn := swish nn;
     ResBlock.use_conv_shortcut := false |}.

(** One turn of [for i in range(num_blocks)].  The Python local [filters]
    is unbound until the first turn; the loop state starts it at 0, which
    no turn reads. *)
Definition stage (s : self) (sc : scope) (num_blocks : nat)
    (st : loop_state T) (i : nat) : loop_state T :=
  let filters := (filters * nth i channel_multipliers 0)%nat in
  let x := res_blocks nn (block_args s filters) sc num_res_blocks (n_res st) (cur st) in
  let nr := (n_res st + num_res_blocks)%nat in
  if Nat.ltb i (num_blocks - 1) then
    if conv_downsample then
      LoopState (conv nn (sc ++ [n_conv st]) filters (4, 4)%nat (2, 2)%nat true x)
                filters nr (S (n_conv st))
    else
      LoopState (dsample nn x) filters nr (n_conv st)
  else LoopState x filters nr (n_conv st).

Definition call (s : self) (sc : scope) (x : T) : T :=
  let norm_fn := get_norm_layer nn (train s) norm_type in
  let x := conv nn (sc ++ [0%nat]) filters (3, 3)%nat (1, 1)%nat false x in
  let num_blocks := length channel_multipliers in
  let st := fold_left (stage s sc num_blocks) (seq 0 num_blocks)
              (LoopState x 0%nat 0%nat 1%nat) in
  let x := res_blocks nn (block_args s (cur_filters st)) sc
             num_res_blocks (n_res st) (cur st) in
  let x := norm_fn (sc ++ [0%nat]) x in
  let x := swish nn x in
  conv nn (sc ++ [n_conv st]) embedding_dim (1, 1)%nat (1, 1)%nat true x.
End Methods.
End Encoder.

(* ===================================================================== *)
(** ** [class Decoder] *)
(* ===================================================================== *)

Module Decoder.
Record self := { train : bool; output_dim : nat }.

Definition filters : nat := 128.
Definition num_res_blocks : nat := 2.
Definition channel_multipliers : list nat := [1; 1; 2; 2; 4]%nat.
Definition norm_type : string := "GN".

Section Methods.
Context {T : Type}.
Variable nn : layers_module T.

Definition block_args (s : self) (filters : nat) : ResBlock.self T :=
  {| ResBlock.filters := filters;
     ResBlock.norm_fn := get_norm_layer nn (train s) norm_type;
     ResBlock.conv_fn := conv nn;
     ResBlock.activation_fn := swish nn;
     ResBlock.use_conv_shortcut := false |}.

(** One turn of [for i in reversed(range(num_blocks))]. *)
Definition stage (s : self) (sc : scope)
    (st : loop_state T) (i : nat) : loop_state T :=
  let filters := (filters * nth i channel_multipliers 0)%nat in
  let x := res_blocks nn (block_args s filters) sc num_res_blocks (n_res st) (cur st) in
  let nr := (n_res st + num_res_blocks)%nat in
  if Nat.ltb 0 i then
    let x := upsample nn x 2 in
    LoopState (conv nn (sc ++ [n_conv st]) filters (3, 3)%nat (1, 1)%nat true x)
              filters nr (S (n_conv st))
  else LoopState x filters nr (n_conv st).

Definition call (s : self) (sc : scope) (x : T) : T :=
  let norm_fn := get_norm_layer nn (train s) norm_type in
  let num_blocks := length channel_multipliers in
  let filters := (filters * List.last channel_multipliers 0)%nat in
  let x := conv nn (sc ++ [0%nat]) filters (3, 3)%nat (1, 1)%nat true x in
  let x := res_blocks nn (block_args s filters) sc num_res_blocks 0 x in
  let st := fold_left (stage s sc) (rev (seq 0 num_blocks))
              (LoopState x filters num_res_blocks 1%nat) in
  let x := norm_fn (sc ++ [0%nat]) (cur st) in
  let x := swish nn x in
  let x := conv nn (sc ++ [n_conv st]) (output_dim s) (3, 3)%nat (1, 1)%nat true x in
  sigmoid nn x.
End Methods.
End Decoder.

(* ===================================================================== *)
(** ** [class VQVAE] *)
(* ===================================================================== *)

(** What [VQVAE] asks of [self.quantizer]: the forward call, [get_codebook]
    and [decode_ids].  [setup] installs [FSQ_Level2(dim=10)], from the
    [quantizers] module; [VectorQuantizer] offers the same three methods. *)
Record quantizer_module (R : Type) := {
  q_call : tensor R -> tensor R * gmap string (value R);
  q_get_codebook : list (list R);
  q_decode_ids : itensor -> tensor R
}.
Arguments q_call {R} _ _.
Arguments q_get_codebook {R} _.
Arguments q_decode_ids {R} _ _.

Definition vector_quantizer {R} `{Scalar R} `{Inexact R} `{!Reduction R}
    (losses : losses_module R) (s : VectorQuantizer.self R) : quantizer_module R :=
  {| q_call := VectorQuantizer.call losses s;
     q_get_codebook := VectorQuantizer.get_codebook s;
     q_decode_ids := VectorQuantizer.decode_ids s |}.

(** An argument that is either the array itself or a dictionary holding
    it ([isinstance(inputs, dict)]). *)
Inductive py_input (R A : Type) :=
| Plain (a : A)
| Dict (d : gmap string (value R)).
Arguments Plain {R A} _.
Arguments Dict {R A} _.

Module VQVAE.
Record self := { train : bool }.

Definition output_dim : nat := 3.

(** Scopes of the two sub-modules built in [setup]. *)
Definition encoder_scope : scope := [0%nat].
Definition decoder_scope : scope := [1%nat].

Section Methods.
Context {R : Type}.
Variable nn : layers_module (tensor R).
Variable quantizer : quantizer_module R.

Definition encoder (s : self) : tensor R -> tensor R :=
  Encoder.call nn {| Encoder.train := train s |} encoder_scope.

Definition decoder (s : self) : tensor R -> tensor R :=
  Decoder.call nn {| Decoder.train := train s; Decoder.output_dim := output_dim |}
    decoder_scope.

Definition encode (s : self) (image : tensor R)
  : tensor R * gmap string (value R) :=
  let encoded_feature := encoder s image in
  q_call quantizer encoded_feature.

Definition decode (s : self) (x : tensor R) : tensor R := decoder s x.

Definition get_codebook (s : self) : list (list R) := q_get_codebook quantizer.

(** [None] stands for the [KeyError] or type error of a dictionary
    without the expected entry. *)
Definition decode_from_indices (s : self) (inputs : py_input R itensor)
  : option (tensor R) :=
  ids ← match inputs with
         | Dict d => match d !! "encoding_indices" with
                     | Some (VIndices ids) => Some ids
                     | _ => None
                     end
         | Plain ids => Some ids
         end;
  let features := q_decode_ids quantizer ids in
  Some (decode s features).

Definition encode_to_indices (s : self) (inputs : py_input R (tensor R))
  : option itensor :=
  image ← match inputs with
           | Dict d => match d !! "image" with
                       | Some (VTensor image) => Some image
                       | _ => None
                       end
           | Plain image => Some image
           end;
  let encoded_feature := encoder s image in
  let result_dict := snd (q_call quantizer encoded_feature) in
  match result_dict !! "encoding_indices" with
  | Some (VIndices ids) => Some ids
  | _ => None
  end.

Definition call (s : self) (image : tensor R) : tensor R :=
  let quantized := fst (encode s image) in
  decoder s quantized.
End Methods.
End VQVAE.

(* ===================================================================== *)
(** ** Laws of scalar arithmetic the theorems rely on *)
(* ===================================================================== *)

(** Each class lists what one group of theorems needs and no more, so that
    binary32, where addition rounds and NaN is unordered, can be an
    instance next to the exact rationals. *)

(** [rltb] is a strict weak order away from NaN. *)
Class OrderLaws (R : Type) `{Scalar R} : Prop := {
  ltb_irrefl : forall a : R, rltb a a = false;
  ltb_trans : forall a b c : R,
    rltb a b = true -> rltb b c = true -> rltb a c = true;
  ltb_negtrans : forall a b c : R,
    is_nan b = false ->
    rltb a b = false -> rltb b c = false -> rltb a c = false
}.

(** Sums of zeros and one one, as in the sum of a one-hot vector. *)
Class UnitLaws (R : Type) `{Scalar R} : Prop := {
  add_0_0 : radd r0 r0 = r0 :> R;
  add_0_1 : radd r0 r1 = r1 :> R;
  add_1_0 : radd r1 r0 = r1 :> R
}.

(** Contracting a one-hot vector with a column of [regular] numbers picks
    the selected entry: products with zero vanish in a sum, the product
    with one is exact. *)
Class GatherLaws (R : Type) `{Scalar R} := {
  regular : R -> bool;
  gather_skip : forall c : R,
    regular c = true -> radd r0 (rmul r0 c) = r0;
  gather_pick : forall c : R,
    regular c = true -> radd r0 (rmul r1 c) = c;
  gather_keep : forall c c' : R,
    regular c = true -> regular c' = true -> radd c (rmul r0 c') = c
}.

(** Signs. [nonneg a] is [0 <= a]; [posfin b] is [0 < b < infinity]. *)
Definition nonneg {R} `{Scalar R} (a : R) : Prop := rleb r0 a = true.
Definition posfin {R} `{Scalar R} (b : R) : bool := ris_finite b && rltb r0 b.

Class SignLaws (R : Type) `{Scalar R} : Prop := {
  nonneg_0 : nonneg (r0 : R);
  nonneg_square : forall a : R, is_nan a = false -> nonneg (rmul a a);
  nonneg_add : forall a b : R, nonneg a -> nonneg b -> nonneg (radd a b);
  nonneg_mul : forall a b : R, nonneg a -> posfin b = true -> nonneg (rmul a b);
  nonneg_div : forall a b : R, nonneg a -> posfin b = true -> nonneg (rdiv a b)
}.

(* ===================================================================== *)
(** ** Shapes *)
(* ===================================================================== *)

(** What the shape theorems assume of the layers on NHWC arrays: a
    convolution with unit strides and "SAME" padding keeps the spatial
    extent and sets the channel count; normalisation and activations keep
    the shape, as does the sum of two arrays of one shape; [dsample] halves
    and [upsample x f] multiplies height and width. *)
Record shape_laws {T} (nn : layers_module T) : Prop := {
  shape_conv : forall sc features k use_bias x b h w c,
    shape nn x = [b; h; w; c] ->
    shape nn (conv nn sc features k (1, 1)%nat use_bias x) = [b; h; w; features];
  shape_norm : forall tr ty sc x,
    shape nn (get_norm_layer nn tr ty sc x) = shape nn x;
  shape_swish : forall x, shape nn (swish nn x) = shape nn x;
  shape_sigmoid : forall x, shape nn (sigmoid nn x) = shape nn x;
  shape_add : forall x y, shape nn x = shape nn y -> shape nn (add nn x y) = shape nn x;
  shape_dsample : forall x b h w c,
    shape nn x = [b; (2 * h)%nat; (2 * w)%nat; c] ->
    shape nn (dsample nn x) = [b; h; w; c];
  shape_upsample : forall x f b h w c,
    shape nn x = [b; h; w; c] ->
    shape nn (upsample nn x f) = [b; (f * h)%nat; (f * w)%nat; c]
}.

(** A block built from the layers of [nn], as the [block_args] of the
    encoder and of the decoder build it. *)
Definition nn_block {T} (nn : layers_module T) (tr : bool) (ty : string)
    (f : nat) : ResBlock.self T :=
  {| ResBlock.filters := f;
     ResBlock.norm_fn := get_norm_layer nn tr ty;
     ResBlock.conv_fn := conv nn;
     ResBlock.activation_fn := swish nn;
     ResBlock.use_conv_shortcut := false |}.

(* ===================================================================== *)
(** ** Sample data in binary32 *)
(* ===================================================================== *)

Module Sample.
Import F32.

Definition third : F32.t := rdiv (rofZ 1) (rofZ 3).
Definition half : F32.t := rdiv (rofZ 1) (rofZ 2).
Definition two : F32.t := rofZ 2.

(** The [losses] functions: the distance as the spec words it; for the
    entropy estimator, which needs [exp] and [log], a constant. *)
Definition losses : losses_module F32.t := {|
  squared_euclidean_distance := all_pairs_sqdist;
  entropy_loss := fun _ _ _ => r0
|}.

(** A one-channel codebook whose 1024 entries all are [v]. *)
Definition constant_codebook (v : F32.t) : list (list F32.t) :=
  repeat [v] VectorQuantizer.codebook_size.

(** Entry [k] is [k / 2 - 3]: the codes -3, -2.5, ..., 508.5. *)
Definition ramp_codebook : list (list F32.t) :=
  map (fun k => [rsub (rdiv (rofZ (Z.of_nat k)) two) (rofZ 3)])
      (seq 0 VectorQuantizer.codebook_size).

Definition vq (train : bool) (cb : list (list F32.t)) : VectorQuantizer.self F32.t :=
  {| VectorQuantizer.train := train; VectorQuantizer.codebook := cb |}.

(** A [1 x 1 x 1 x 1] feature grid holding [v], and a [1 x 1 x 2 x 1] one. *)
Definition pixel (v : F32.t) : tensor F32.t := Tensor [1; 1; 1]%nat 1 [[v]].
Definition two_pixels (u v : F32.t) : tensor F32.t :=
  Tensor [1; 1; 2]%nat 1 [[u]; [v]].

(** A codebook of the width the encoder produces: entry [k] is [k / 2 - 3]
    in each of its [embedding_dim] channels. *)
Definition wide_codebook : list (list F32.t) :=
  map (fun k => repeat (rsub (rdiv (rofZ (Z.of_nat k)) two) (rofZ 3))
                  Encoder.embedding_dim)
      (seq 0 VectorQuantizer.codebook_size).

(** A [1 x 16 x 16 x 3] image, all entries [half]. *)
Definition image : tensor F32.t :=
  Tensor [1; 16; 16]%nat 3 (repeat (repeat half 3) 256).

(** Stand-ins for the layers, with the shapes of the real ones: a
    convolution copies the first [features] channels (padding with zeros)
    of the positions it keeps, normalisation and the activations that need
    [exp] are the identity, [dsample] keeps and [upsample] repeats
    positions. *)
Definition ceil_div (n d : nat) : nat := ((n + d - 1) / d)%nat.

Definition layers : layers_module (tensor F32.t) := {|
  shape := shape_of;
  add := tadd;
  conv := fun _ features _ strides _ x =>
    let ld := match lead x with
              | [b; h; w] => [b; ceil_div h (fst strides); ceil_div w (snd strides)]
              | l => l
              end in
    Tensor ld features (map (resize features r0) (take (numel ld) (rows x)));
  get_norm_layer := fun _ _ _ x => x;
  relu := tmap (fun v => if rltb v r0 then r0 else v);
  swish := fun x => x;
  sigmoid := fun x => x;
  dsample := fun x =>
    match lead x with
    | [b; h; w] =>
        let ld := [b; Nat.div2 h; Nat.div2 w] in
        Tensor ld (chan x) (take (numel ld) (rows x))
    | _ => x
    end;
  upsample := fun x f =>
    match lead x with
    | [b; h; w] =>
        Tensor [b; (f * h)%nat; (f * w)%nat] (chan x)
          (concat (replicate (f * f) (rows x)))
    | _ => x
    end
|}.

Definition block : ResBlock.self (tensor F32.t) :=
  {| ResBlock.filters := 2;
     ResBlock.norm_fn := get_norm_layer layers false "GN";
     ResBlock.conv_fn := conv layers;
     ResBlock.activation_fn := relu layers;
     ResBlock.use_conv_shortcut := false |}.
End Sample.

(* ===================================================================== *)
(** ** Vocabulary of the statements *)
(* ===================================================================== *)

Local Open Scope nat_scope.

Section Vocabulary.
Context {R : Type} `{Scalar R}.

Definition nan_free (l : list R) : Prop :=
  Forall (fun v => is_nan v = false) l.

(** [r] is the least index at which [l] takes its minimum: no entry is
    below [l[r]], and [l[r]] is strictly below every earlier entry. *)
Definition first_min (l : list R) (r : nat) : Prop :=
  exists m, l !! r = Some m /\
    forall k v, l !! k = Some v ->
      rltb v m = false /\ (k < r -> rltb m v = true).

(** Every entry of the index array is a codebook index. *)
Definition in_range (num_classes : nat) (ids : itensor) : Prop :=
  Forall (fun i => (0 <= i < Z.of_nat num_classes)%Z) (ivals ids).

(** A [K x C] matrix of [regular] numbers. *)
Definition regular_matrix `{!GatherLaws R} (m : list (list R)) : Prop :=
  Forall (Forall (fun c => regular c = true)) m.

(** The rewrite [a + (q - a)] gives back [q], at every entry of two
    arrays of one shape. *)
Definition passthrough_exact (x q : tensor R) : Prop :=
  Forall2 (Forall2 (fun a b => radd a (rsub b a) = b)) (rows x) (rows q).

(** [jnp.clip(i, 0, n - 1)], the index an out-of-bounds mode "clip" would
    read. *)
Definition clip (n : nat) (i : Z) : nat :=
  Z.to_nat (Z.max 0 (Z.min i (Z.of_nat n - 1))).
End Vocabulary.

(** The four loss entries of the result dictionary. *)
Definition loss_keys : list string :=
  ["quantizer_loss"; "e_latent_loss"; "q_latent_loss"; "entropy_loss"]%string.


(* ===================================================================== *)
(** * Theorems *)
(* ===================================================================== *)

(** ** Reduction orders *)

Lemma leaves_fold_left (l : list nat) (t : sum_tree) :
  leaves (fold_left (fun t i => Node t (Leaf i)) l t) = leaves t ++ l.
Proof.
  revert t. induction l as [|i l IH]; intros t; simpl.
  - by rewrite app_nil_r.
  - rewrite IH. simpl. by rewrite <- app_assoc.
Qed.

Lemma left_plan_covers (n : nat) : leaves (left_plan n) ≡ₚ seq 0 n.
Proof. unfold left_plan. by rewrite leaves_fold_left. Qed.

Lemma tree_sum_fold_left {R : Type} `{Scalar R} (l : list R) (idxs : list nat)
    (t : sum_tree) :
  tree_sum (fold_left (fun t i => Node t (Leaf i)) idxs t) l
  = fold_left radd (map (fun i => nth i l r0) idxs) (tree_sum t l).
Proof.
  revert t. induction idxs as [|i idxs IH]; intros t; simpl; [done|].
  by rewrite IH.
Qed.

(** Adding from the left is one of the orders: it gives [rsum]. *)
Lemma left_plan_sum {R : Type} `{Scalar R} (l : list R) :
  tree_sum (left_plan (length l)) l = rsum l.
Proof.
  unfold left_plan, rsum. rewrite tree_sum_fold_left. simpl. f_equal.
  apply list_eq. intros j. rewrite list_lookup_fmap.
  destruct (l !! j) as [x|] eqn:E.
  - rewrite lookup_seq_lt by (by apply lookup_lt_Some in E).
    simpl. by rewrite nth_lookup, E.
  - rewrite lookup_seq_ge; [done|]. by apply lookup_ge_None in E.
Qed.

(** The order the sample computations reduce in. *)
#[global] Instance f32_reduction : Reduction F32.t :=
  {| sum_plan := left_plan; sum_plan_covers := left_plan_covers |}.

#[global] Instance qc_reduction : Reduction Qc :=
  {| sum_plan := left_plan; sum_plan_covers := left_plan_covers |}.

(** ** [jnp.argmin] *)

Section ArgminFacts.
Context {R : Type} `{Scalar R}.

Lemma argmin_from_bound (l : list R) : forall best bi i,
  bi < i -> argmin_from best bi i l < i + length l.
Proof.
  induction l as [|v l IH]; intros best bi i Hi; simpl.
  - lia.
  - destruct (argmin_pick v best).
    + specialize (IH v i (S i)); lia.
    + specialize (IH best bi (S i)); lia.
Qed.

Lemma argmin_bound (l : list R) : argmin l < Nat.max 1 (length l).
Proof.
  destruct l as [|v l]; simpl; [lia|].
  pose proof (argmin_from_bound l v 0 1); lia.
Qed.

Context `{!OrderLaws R}.

Lemma ltb_asym (a b : R) : rltb a b = true -> rltb b a = false.
Proof.
  intros Hab. destruct (rltb b a) eqn:Hba; [|done].
  pose proof (ltb_trans _ _ _ Hab Hba) as Haa.
  rewrite ltb_irrefl in Haa. done.
Qed.

(** The scan keeps, for the prefix [pre] already read, the first index
    [bi] of its minimum [best]. *)
Lemma argmin_from_first_min (l : list R) : forall pre best bi,
  nan_free (pre ++ l) ->
  pre !! bi = Some best ->
  (forall k v, pre !! k = Some v ->
     rltb v best = false /\ (k < bi -> rltb best v = true)) ->
  first_min (pre ++ l) (argmin_from best bi (length pre) l).
Proof.
  unfold nan_free.
  induction l as [|v l IH]; intros pre best bi Hnan Hbest Hinv; simpl.
  - rewrite app_nil_r. exists best. split; [done|]. apply Hinv.
  - assert (Hv : is_nan v = false).
    { rewrite Forall_app in Hnan. destruct Hnan as [_ Hl].
      by inversion Hl. }
    assert (Hb : is_nan best = false).
    { rewrite Forall_app in Hnan. destruct Hnan as [Hp _].
      rewrite Forall_lookup in Hp. by apply (Hp bi). }
    unfold argmin_pick. rewrite Hv, andb_false_l, orb_false_r.
    replace (pre ++ v :: l) with ((pre ++ [v]) ++ l) in * by (by rewrite <- app_assoc).
    replace (S (length pre)) with (length (pre ++ [v])) by (rewrite length_app; simpl; lia).
    destruct (rltb v best) eqn:Hlt.
    + apply IH; [done| |].
      * rewrite lookup_app_r by lia. by rewrite Nat.sub_diag.
      * intros k w Hk.
        destruct (decide (k < length pre)) as [Hlt'|Hge].
        -- rewrite lookup_app_l in Hk by done.
           destruct (Hinv k w Hk) as [Hwb _].
           split.
           ++ apply (ltb_negtrans w best v); [done|done|by apply ltb_asym].
           ++ intros _. destruct (rltb v w) eqn:Hvw; [done|].
              assert (is_nan w = false) as Hw.
              { rewrite Forall_app in Hnan. destruct Hnan as [Hp _].
                rewrite Forall_app in Hp. destruct Hp as [Hp _].
                rewrite Forall_lookup in Hp. by apply (Hp k). }
              pose proof (ltb_negtrans v w best Hw Hvw Hwb). congruence.
        -- rewrite lookup_app_r in Hk by lia.
           destruct (k - length pre) as [|n] eqn:E; simpl in Hk; [|done].
           inversion Hk; subst w. split; [apply ltb_irrefl|]. lia.
    + apply IH; [done| |].
      * rewrite lookup_app_l; [done|]. by apply lookup_lt_Some in Hbest.
      * intros k w Hk.
        destruct (decide (k < length pre)) as [Hlt'|Hge].
        -- rewrite lookup_app_l in Hk by done. by apply Hinv.
        -- rewrite lookup_app_r in Hk by lia.
           destruct (k - length pre) as [|n] eqn:E; simpl in Hk; [|done].
           inversion Hk; subst w. split; [done|].
           apply lookup_lt_Some in Hbest. lia.
Qed.

Lemma argmin_first_min (l : list R) :
  l <> [] -> nan_free l -> first_min l (argmin l).
Proof.
  destruct l as [|v l]; [done|]. intros _ Hnan. simpl.
  apply (argmin_from_first_min l [v] v 0); [done|done|].
  intros [|k] w Hk; simpl in Hk; [|done].
  inversion Hk; subst. split; [apply ltb_irrefl|lia].
Qed.
End ArgminFacts.

(** ** The order of binary32 and of the rationals *)

Module F32Order.
Import F32.
Local Open Scope Z_scope.

Lemma is_nan_spec (x : F32.t) : is_nan x = F32.isnan x.
Proof.
  unfold is_nan. cbn. unfold SFeqb.
  destruct x as [[]|[]| |[] m e]; cbn; try done.
  all: rewrite Z.compare_refl, Pos.compare_cont_refl; done.
Qed.

Lemma ltb_rank (a b : F32.t) :
  F32.isnan a = false -> F32.isnan b = false ->
  (SFltb a b = true <-> lex_lt (rank a) (rank b)).
Proof.
  unfold SFltb, lex_lt.
  destruct a as [sa|sa| |sa ma ea], b as [sb|sb| |sb mb eb]; try done;
    intros _ _; cbn;
    try (destruct sa); try (destruct sb); cbn; try (split; [done|lia]); try (split; [lia|done]).
  all: rewrite ?Pos.compare_cont_spec; cbn.
  all: destruct (Z.compare_spec ea eb); try destruct (Pos.compare_spec ma mb); cbn; split; try done; try lia.
Qed.

Lemma ltb_not_nan (a b : F32.t) :
  SFltb a b = true -> F32.isnan a = false /\ F32.isnan b = false.
Proof. by destruct a as [| | |], b as [| | |]. Qed.

Lemma ltb_nan_r (a b : F32.t) : F32.isnan b = true -> SFltb a b = false.
Proof. by destruct a as [| | |], b as [| | |]. Qed.

Lemma ltb_nan_l (a b : F32.t) : F32.isnan a = true -> SFltb a b = false.
Proof. by destruct a as [| | |], b as [| | |]. Qed.

Lemma lex_lt_irrefl a : ~ lex_lt a a.
Proof. destruct a as [[a1 a2] a3]. unfold lex_lt. lia. Qed.

Lemma lex_lt_trans a b c : lex_lt a b -> lex_lt b c -> lex_lt a c.
Proof.
  destruct a as [[a1 a2] a3], b as [[b1 b2] b3], c as [[c1 c2] c3].
  unfold lex_lt. lia.
Qed.

Lemma lex_lt_negtrans a b c : ~ lex_lt a b -> ~ lex_lt b c -> ~ lex_lt a c.
Proof.
  destruct a as [[a1 a2] a3], b as [[b1 b2] b3], c as [[c1 c2] c3].
  unfold lex_lt. lia.
Qed.

#[global] Instance f32_order_laws : OrderLaws F32.t.
Proof.
  split; cbn.
  - intros a. destruct (F32.isnan a) eqn:Ha; [by apply ltb_nan_l|].
    apply not_true_is_false. rewrite ltb_rank by done. apply lex_lt_irrefl.
  - intros a b c Hab Hbc.
    destruct (ltb_not_nan _ _ Hab) as [Ha Hb].
    destruct (ltb_not_nan _ _ Hbc) as [_ Hc].
    rewrite ltb_rank in * by done. eauto using lex_lt_trans.
  - intros a b c Hb Hab Hbc. rewrite is_nan_spec in Hb.
    destruct (F32.isnan a) eqn:Ha; [by apply ltb_nan_l|].
    destruct (F32.isnan c) eqn:Hc; [by apply ltb_nan_r|].
    apply not_true_is_false. apply not_true_iff_false in Hab, Hbc.
    rewrite ltb_rank in * by done. eauto using lex_lt_negtrans.
Qed.
End F32Order.

Module ExactLaws.
Lemma ltb_lt (a b : Qc) : Exact.ltb a b = true <-> (a < b)%Qc.
Proof. unfold Exact.ltb. rewrite Qclt_alt. by destruct (a ?= b)%Qc. Qed.

Lemma leb_le (a b : Qc) : Exact.leb a b = true <-> (a <= b)%Qc.
Proof. unfold Exact.leb. rewrite Qcle_alt. by destruct (a ?= b)%Qc. Qed.

Lemma eqb_refl (a : Qc) : Exact.eqb a a = true.
Proof. unfold Exact.eqb. by rewrite (proj1 (Qceq_alt a a) eq_refl). Qed.

Lemma Qclt_irrefl (a : Qc) : ~ (a < a)%Qc.
Proof. apply Qcle_not_lt, Qcle_refl. Qed.

#[global] Instance qc_order_laws : OrderLaws Qc.
Proof.
  split; cbn.
  - intros a. apply not_true_is_false. rewrite ltb_lt. apply Qclt_irrefl.
  - intros a b c. rewrite !ltb_lt. apply Qclt_trans.
  - intros a b c _ Hab Hbc. apply not_true_is_false. apply not_true_iff_false in Hab, Hbc.
    rewrite ltb_lt in *. apply Qcnot_lt_le in Hab, Hbc. apply Qcle_not_lt.
    by apply Qcle_trans with b.
Qed.
End ExactLaws.

(** ** Rounding in binary32: signs, and the products of a one-hot row *)

Module F32Round.
Import F32.
Local Open Scope Z_scope.

Lemma iter_pos_invariant {A} (P : A -> Prop) (f : A -> A) :
  (forall x, P x -> P (f x)) -> forall p x, P x -> P (SpecFloat.iter_pos f p x).
Proof.
  intros Hf. induction p as [p IH|p IH|]; intros x Hx; simpl; auto.
Qed.

Lemma shr_1_nonneg mrs : 0 <= shr_m mrs -> 0 <= shr_m (shr_1 mrs).
Proof. destruct mrs as [[|[p|p|]|[p|p|]] r s]; simpl; lia. Qed.

Lemma shr_nonneg mrs e n : 0 <= shr_m mrs -> 0 <= shr_m (fst (shr mrs e n)).
Proof.
  intros Hm. destruct n as [|p|p]; simpl; try done.
  by apply (iter_pos_invariant (fun x => 0 <= shr_m x)); [apply shr_1_nonneg|].
Qed.

Lemma shr_fexp_nonneg m e l :
  0 <= m -> 0 <= shr_m (fst (shr_fexp prec emax m e l)).
Proof.
  intros Hm. unfold shr_fexp. apply shr_nonneg.
  by destruct l as [|[]].
Qed.

Lemma round_nearest_even_nonneg m l : 0 <= m -> 0 <= round_nearest_even m l.
Proof. intros Hm. destruct l as [|[]]; simpl; try done; try lia. destruct (Z.even m); lia. Qed.

Lemma binary_round_aux_sign s m e l :
  0 <= m -> has_sign s (binary_round_aux prec emax s m e l).
Proof.
  intros Hm. unfold binary_round_aux.
  pose proof (shr_fexp_nonneg m e l Hm) as H1.
  destruct (shr_fexp prec emax m e l) as [mrs' e'] eqn:E1. simpl in H1.
  pose proof (shr_fexp_nonneg _ e' loc_Exact
                (round_nearest_even_nonneg _ (loc_of_shr_record mrs') H1)) as H2.
  destruct (shr_fexp prec emax (round_nearest_even _ _) e' loc_Exact) as [mrs'' e''].
  simpl in H2. destruct (shr_m mrs'') as [|p|p]; simpl; [done| |lia].
  by destruct (e'' <=? emax - prec).
Qed.

Lemma binary_round_sign s m e : has_sign s (binary_round prec emax s m e).
Proof.
  unfold binary_round. destruct (shl_align _ _ _) as [mz ez].
  by apply binary_round_aux_sign.
Qed.

Lemma has_sign_nonneg x : has_sign false x -> nonneg x.
Proof. destruct x as [s|s| |s m e]; simpl; try done; by intros ->. Qed.

Lemma nonneg_inv x :
  nonneg x -> match x with S754_zero _ => True | _ => has_sign false x end.
Proof. by destruct x as [s|[]| |[] m e]. Qed.

Lemma posfin_inv b : posfin b = true -> exists m e, b = S754_finite false m e.
Proof. destruct b as [s|s| |[] m e]; try done. eauto. Qed.

Lemma div_core_nonneg m1 e1 m2 e2 :
  0 <= fst (fst (SFdiv_core_binary prec emax (Zpos m1) e1 (Zpos m2) e2)).
Proof.
  unfold SFdiv_core_binary.
  set (s := _ - _ - _). clearbody s.
  set (m' := match s with 0 => _ | Z.pos _ => _ | Z.neg _ => _ end).
  assert (0 <= m') as Hm'.
  { subst m'. destruct s; try done. apply Z.shiftl_nonneg. lia. }
  clearbody m'.
  pose proof (Z_div_mod m' (Zpos m2) eq_refl) as Hd.
  destruct (Z.div_eucl m' (Z.pos m2)) as [q r]. simpl. nia.
Qed.

#[global] Instance f32_sign_laws : SignLaws F32.t.
Proof.
  split.
  - done.
  - intros a Ha. rewrite F32Order.is_nan_spec in Ha.
    destruct a as [s|s| |s m e]; try done; try by destruct s.
    apply has_sign_nonneg. cbn. rewrite xorb_nilpotent.
    by apply binary_round_aux_sign.
  - intros a b Ha Hb. apply nonneg_inv in Ha, Hb.
    destruct a as [sa|sa| |sa ma ea], b as [sb|sb| |sb mb eb];
      simpl in Ha, Hb; subst; try done; try by destruct sa, sb.
    all: try by destruct sa.
    all: try by destruct sb.
    + apply has_sign_nonneg. cbn. apply binary_round_sign.
  - intros a b Ha Hb. apply nonneg_inv in Ha.
    destruct (posfin_inv b Hb) as (mb & eb & ->).
    destruct a as [sa|sa| |sa ma ea]; simpl in Ha; subst; try done.
    apply has_sign_nonneg. cbn. by apply binary_round_aux_sign.
  - intros a b Ha Hb. apply nonneg_inv in Ha.
    destruct (posfin_inv b Hb) as (mb & eb & ->).
    destruct a as [sa|sa| |sa ma ea]; simpl in Ha; subst; try done.
    apply has_sign_nonneg. cbn -[SFdiv_core_binary].
    pose proof (div_core_nonneg ma ea mb eb) as Hq.
    destruct (SFdiv_core_binary _ _ _ _ _ _) as [[mz ez] lz].
    by apply binary_round_aux_sign.
Qed.

(** Multiplying by one is exact on a binary32 number: the product
    mantissa is [m] shifted by 23 bits, and rounding shifts it back. *)
Lemma mul_1_finite s m e :
  bounded prec emax m e = true ->
  SFmul prec emax (of_Z 1) (S754_finite s m e) = S754_finite s m e.
Proof.
  unfold bounded, canonical_mantissa. rewrite andb_true_iff, Z.eqb_eq, Z.leb_le.
  intros [Hc He].
  change (of_Z 1) with (S754_finite false 8388608 (-23)).
  cbn [SFmul xorb].
  unfold binary_round_aux.
  assert (Hs1 : shr_fexp prec emax (Z.pos (8388608 * m)) (-23 + e) loc_Exact
                = ({| shr_m := Zpos m; shr_r := false; shr_s := false |}, e)).
  { unfold shr_fexp.
    replace (fexp prec emax (Zdigits2 (Z.pos (8388608 * m)) + (-23 + e)) - (-23 + e))
      with 23.
    - unfold shr, shr_record_of_loc. apply pair_equal_spec. split; [by vm_compute|lia].
    - replace (Zdigits2 (Z.pos (8388608 * m)) + (-23 + e))
        with (Z.pos (digits2_pos m) + e); [rewrite Hc; lia|].
      rewrite Pos.mul_comm, !Pos.mul_xO_r, Pos.mul_1_r.
      cbn [Zdigits2 digits2_pos]. lia. }
  rewrite Hs1. cbn [shr_m loc_of_shr_record round_nearest_even].
  assert (Hs2 : shr_fexp prec emax (Z.pos m) e loc_Exact
                = ({| shr_m := Zpos m; shr_r := false; shr_s := false |}, e)).
  { unfold shr_fexp. cbn [Zdigits2]. rewrite Hc, Z.sub_diag. done. }
  rewrite Hs2. cbn [shr_m].
  apply Z.leb_le in He. by rewrite He.
Qed.

Lemma f32_gather_skip (c : F32.t) :
  F32.is_regular c = true -> radd r0 (rmul r0 c) = r0.
Proof. intros Hc. by destruct c as [[]|[]| |[] m e]. Qed.

Lemma f32_gather_pick (c : F32.t) :
  F32.is_regular c = true -> radd r0 (rmul r1 c) = c.
Proof.
  intros Hc. destruct c as [[]|[]| |s m e]; try done.
  simpl in Hc. cbn [radd rmul r0 r1 scalar]. by rewrite mul_1_finite.
Qed.

Lemma f32_gather_keep (c c' : F32.t) :
  F32.is_regular c = true -> F32.is_regular c' = true -> radd c (rmul r0 c') = c.
Proof.
  intros Hc Hc'.
  destruct c as [[]|[]| |s m e]; try done;
    by destruct c' as [[]|[]| |[] m' e'].
Qed.

#[global] Instance f32_gather_laws : GatherLaws F32.t := {|
  regular := F32.is_regular;
  gather_skip := f32_gather_skip;
  gather_pick := f32_gather_pick;
  gather_keep := f32_gather_keep
|}.

#[global] Instance f32_unit_laws : UnitLaws F32.t.
Proof. by split. Qed.
End F32Round.

(** ** Counts in binary32 *)

Module F32Count.
Import F32.
Local Open Scope Z_scope.

(** Rounding a canonical mantissa and exponent changes nothing. *)
Lemma round_canonical s m e :
  bounded prec emax m e = true ->
  binary_round_aux prec emax s (Zpos m) e loc_Exact = S754_finite s m e.
Proof.
  unfold bounded, canonical_mantissa. rewrite andb_true_iff, Z.eqb_eq.
  intros [Hc He]. unfold binary_round_aux.
  assert (Hs : shr_fexp prec emax (Z.pos m) e loc_Exact
               = ({| shr_m := Zpos m; shr_r := false; shr_s := false |}, e)).
  { unfold shr_fexp. cbn [Zdigits2]. rewrite Hc, Z.sub_diag. done. }
  rewrite Hs. cbn [shr_m loc_of_shr_record round_nearest_even]. rewrite Hs.
  cbn [shr_m]. by rewrite He.
Qed.

Lemma digits_iter_xO (p k : positive) :
  Zpos (digits2_pos (Pos.iter xO p k)) = Zpos (digits2_pos p) + Zpos k.
Proof.
  induction k as [|k IH] using Pos.peano_ind.
  - cbn. lia.
  - rewrite Pos.iter_succ. cbn [digits2_pos]. lia.
Qed.

Lemma digits_bound (p : positive) (k : Z) :
  0 <= k -> Zpos p < 2 ^ k -> Zpos (digits2_pos p) <= k.
Proof.
  revert k. induction p as [p IH|p IH|]; intros k Hk Hp; cbn [digits2_pos].
  - destruct (Z.eq_dec k 0) as [->|Hne]; [simpl in Hp; lia|].
    replace k with (Z.succ (k - 1)) in Hp by lia.
    rewrite Z.pow_succ_r in Hp by lia.
    specialize (IH (k - 1)). lia.
  - destruct (Z.eq_dec k 0) as [->|Hne]; [simpl in Hp; lia|].
    replace k with (Z.succ (k - 1)) in Hp by lia.
    rewrite Z.pow_succ_r in Hp by lia.
    specialize (IH (k - 1)). lia.
  - destruct (Z.eq_dec k 0) as [->|Hne]; [simpl in Hp; lia|]. lia.
Qed.

(** An integer below 2^24 converts to a positive finite binary32. *)
Lemma of_Z_posfin (p : positive) :
  Zpos p < 2 ^ 24 -> posfin (rofZ (Zpos p) : F32.t) = true.
Proof.
  intros Hp. pose proof (digits_bound p 24 ltac:(lia) Hp) as Hd.
  assert (exists m e, of_Z (Zpos p) = S754_finite false m e) as (m & e & Hm).
  { unfold of_Z, binary_normalize, binary_round.
    set (d := Zpos (digits2_pos p)) in *.
    assert (Hf : fexp prec emax (d + 0) = d - 24).
    { unfold fexp, emin, prec, emax. lia. }
    rewrite Hf. unfold shl_align.
    destruct (d - 24 - 0) as [|k|k] eqn:Hk; try lia.
    - eexists _, _. apply round_canonical.
      unfold bounded, canonical_mantissa. fold d.
      rewrite andb_true_iff, Z.eqb_eq, Z.leb_le. unfold fexp, emin, prec, emax. lia.
    - eexists _, _. apply round_canonical.
      unfold bounded, canonical_mantissa. rewrite digits_iter_xO. fold d.
      rewrite andb_true_iff, Z.eqb_eq, Z.leb_le. unfold fexp, emin, prec, emax. lia. }
  cbn [rofZ scalar]. by rewrite Hm.
Qed.

Lemma count_posfin (n : nat) :
  (0 < n)%nat -> Z.of_nat n < 2 ^ 24 ->
  posfin (rofZ (Z.of_nat n) : F32.t) = true.
Proof.
  intros Hn Hlt. destruct (Z.of_nat n) as [|p|p] eqn:E; try lia.
  by apply of_Z_posfin.
Qed.
End F32Count.


(** ** One-hot rows and their contraction with the codebook *)

Section OneHotFacts.
Context {R : Type} `{Scalar R}.

Lemma one_hot_row_length K i : length (one_hot_row (R:=R) K i) = K.
Proof. unfold one_hot_row. by rewrite length_map, length_seq. Qed.

Lemma one_hot_off (i : Z) (a n : nat) :
  (forall k, a <= k < a + n -> i <> Z.of_nat k) ->
  map (fun k => if Z.eqb i (Z.of_nat k) then r1 else r0 : R) (seq a n) = repeat r0 n.
Proof.
  revert a. induction n as [|n IH]; intros a Hne; simpl; [done|].
  destruct (Z.eqb_spec i (Z.of_nat a)) as [->|_].
  - exfalso. apply (Hne a); [lia|done].
  - f_equal. apply IH. intros k Hk. apply Hne. lia.
Qed.

(** A one-hot row is zeros, a one at the index, zeros. *)
Lemma one_hot_row_split (K i : nat) :
  i < K ->
  one_hot_row (R:=R) K (Z.of_nat i)
  = repeat r0 i ++ r1 :: repeat r0 (K - S i).
Proof.
  intros Hi. unfold one_hot_row.
  replace K with (i + S (K - S i)) at 1 by lia.
  rewrite seq_app, map_app. simpl. rewrite Z.eqb_refl.
  rewrite !one_hot_off; [done| |]; intros k Hk; lia.
Qed.

Lemma zip_zeros (n : nat) (l : list R) :
  length l = n -> zip_with rmul (repeat r0 n) l = map (rmul r0) l.
Proof.
  revert l. induction n as [|n IH]; intros [|c l] Hl; simpl in *; try done.
  f_equal. apply IH. lia.
Qed.

Section Sum.
Context `{!UnitLaws R}.

Lemma sum_zeros_from_0 n : fold_left radd (repeat (r0 : R) n) r0 = r0.
Proof. induction n as [|n IH]; simpl; [done|]. by rewrite add_0_0. Qed.

Lemma sum_zeros_from_1 n : fold_left radd (repeat (r0 : R) n) r1 = r1.
Proof. induction n as [|n IH]; simpl; [done|]. by rewrite add_1_0. Qed.

Lemma one_hot_row_sum (K i : nat) :
  i < K -> rsum (one_hot_row (R:=R) K (Z.of_nat i)) = r1.
Proof.
  intros Hi. rewrite one_hot_row_split by done. unfold rsum.
  rewrite fold_left_app. simpl.
  by rewrite sum_zeros_from_0, add_0_1, sum_zeros_from_1.
Qed.
End Sum.

Section Gather.
Context `{!GatherLaws R}.

Lemma sum_skipped (l : list R) :
  Forall (fun c => regular c = true) l ->
  fold_left radd (map (rmul r0) l) r0 = r0.
Proof.
  induction 1 as [|c l Hc _ IH]; simpl; [done|].
  by rewrite gather_skip.
Qed.

Lemma sum_kept (l : list R) (c : R) :
  regular c = true ->
  Forall (fun c' => regular c' = true) l ->
  fold_left radd (map (rmul r0) l) c = c.
Proof.
  intros Hc. induction 1 as [|c' l Hc' _ IH]; simpl; [done|].
  by rewrite gather_keep.
Qed.

(** Contracting the one-hot row of [i] with a column picks entry [i]. *)
Lemma dot_one_hot (col : list R) (i : nat) (c : R) :
  col !! i = Some c ->
  Forall (fun c => regular c = true) col ->
  rsum (zip_with rmul (one_hot_row (length col) (Z.of_nat i)) col) = c.
Proof.
  intros Hi Hreg.
  pose proof (lookup_lt_Some _ _ _ Hi) as Hlt.
  rewrite one_hot_row_split by done.
  rewrite <- (take_drop_middle col i c Hi) at 2.
  assert (Hc : regular c = true).
  { rewrite Forall_lookup in Hreg. by apply (Hreg i). }
  rewrite zip_with_app by (rewrite repeat_length, length_take; lia).
  simpl. rewrite !zip_zeros.
  - unfold rsum. rewrite fold_left_app. simpl.
    rewrite sum_skipped by (by apply Forall_take).
    rewrite gather_pick by done.
    apply sum_kept; [done|by apply Forall_drop].
  - rewrite length_drop. lia.
  - rewrite length_take. lia.
Qed.

Lemma map_nth_seq (l : list R) (d : R) :
  map (fun j => nth j l d) (seq 0 (length l)) = l.
Proof.
  apply list_eq. intros j. rewrite list_lookup_fmap.
  destruct (l !! j) as [x|] eqn:E.
  - rewrite lookup_seq_lt by (by apply lookup_lt_Some in E).
    simpl. by rewrite nth_lookup, E.
  - rewrite lookup_seq_ge; [done|]. by apply lookup_ge_None in E.
Qed.

Lemma column_lookup (m : list (list R)) (i j : nat) (row : list R) :
  m !! i = Some row -> column j m !! i = Some (nth j row r0).
Proof. intros Hi. unfold column. by rewrite list_lookup_fmap, Hi. Qed.

Lemma column_regular (m : list (list R)) (j : nat) :
  regular_matrix m ->
  Forall (fun r => length r = width m) m ->
  j < width m ->
  Forall (fun c => regular c = true) (column j m).
Proof.
  intros Hreg Hrect Hj. unfold column. rewrite Forall_fmap.
  rewrite Forall_lookup. intros i r Hr. simpl.
  assert (Hlen : length r = width m).
  { rewrite Forall_lookup in Hrect. by apply (Hrect i). }
  assert (Hr' : Forall (fun c => regular c = true) r).
  { unfold regular_matrix in Hreg. rewrite Forall_lookup in Hreg. by apply (Hreg i). }
  destruct (lookup_lt_is_Some_2 r j) as [c Hc]; [lia|].
  rewrite nth_lookup, Hc. simpl.
  rewrite Forall_lookup in Hr'. by apply (Hr' j).
Qed.

(** [jnp.dot] of the one-hot row of [i] with the codebook is row [i]. *)
Lemma dot_row_one_hot (m : list (list R)) (i : nat) (row : list R) :
  m !! i = Some row ->
  Forall (fun r => length r = width m) m ->
  regular_matrix m ->
  dot_row (one_hot_row (length m) (Z.of_nat i)) m = row.
Proof.
  intros Hi Hrect Hreg. unfold dot_row.
  assert (Hlen : length row = width m).
  { rewrite Forall_lookup in Hrect. by apply (Hrect i). }
  transitivity (map (fun j => nth j row r0) (seq 0 (length row)));
    [|apply map_nth_seq].
  rewrite Hlen.
  apply map_ext_in. intros j Hj. apply in_seq in Hj.
  replace (length m) with (length (column j m))
    by (unfold column; by rewrite length_map).
  apply dot_one_hot.
  - by apply column_lookup.
  - apply column_regular; [done|done|lia].
Qed.
End Gather.
End OneHotFacts.

Section QuantizerFacts.
Context {R : Type} `{Scalar R} `{Inexact R}.
Variable L : losses_module R.
Hypothesis HL : sed_shape L.
Variable s : VectorQuantizer.self R.
Local Abbreviation K := VectorQuantizer.codebook_size.
Hypothesis HK : length (VectorQuantizer.codebook s) = K.

Lemma codebook_size_pos : 0 < K.
Proof. apply Nat.ltb_lt. by vm_compute. Qed.

Lemma distances_rows (x : tensor R) :
  wf_matrix (length (rows x)) K (rows (VectorQuantizer.distances L s x)).
Proof. unfold VectorQuantizer.distances. simpl. rewrite <- HK. apply HL. Qed.

Lemma distances_lookup (x : tensor R) (p : nat) (v : list R) :
  rows x !! p = Some v ->
  exists drow, rows (VectorQuantizer.distances L s x) !! p = Some drow /\
               length drow = K.
Proof.
  intros Hp. destruct (distances_rows x) as [Hlen Hrows].
  destruct (lookup_lt_is_Some_2 (rows (VectorQuantizer.distances L s x)) p) as [drow Hd].
  { rewrite Hlen. by apply lookup_lt_Some in Hp. }
  exists drow. split; [done|].
  rewrite Forall_lookup in Hrows. by apply (Hrows p).
Qed.

Lemma argmin_row_bound (x : tensor R) (drow : list R) :
  drow ∈ rows (VectorQuantizer.distances L s x) -> argmin drow < K.
Proof.
  intros Hin. destruct (distances_rows x) as [_ Hrows].
  rewrite Forall_forall in Hrows.
  pose proof (Hrows _ Hin) as Hlen. pose proof (argmin_bound drow) as Hb.
  pose proof codebook_size_pos. lia.
Qed.
End QuantizerFacts.


Lemma forallb2_Forall {A : Type} (f : A -> bool) (m : list (list A)) :
  forallb (forallb f) m = true -> Forall (Forall (fun c => f c = true)) m.
Proof.
  intros Hm. rewrite forallb_forall in Hm.
  apply Forall_forall. intros r Hr. apply list_elem_of_In in Hr.
  specialize (Hm r Hr). rewrite forallb_forall in Hm.
  apply Forall_forall. intros c Hc. apply Hm. by apply list_elem_of_In.
Qed.

(** ** The sample [losses] module *)

Lemma all_pairs_sqdist_shape {R} `{Scalar R} (a b : list (list R)) :
  wf_matrix (length a) (length b) (all_pairs_sqdist a b).
Proof.
  unfold all_pairs_sqdist. split; [by rewrite length_map|].
  rewrite Forall_fmap. apply Forall_forall. intros u _. simpl.
  by rewrite length_map.
Qed.

Lemma sample_losses_shape : sed_shape Sample.losses.
Proof. intros a b. apply all_pairs_sqdist_shape. Qed.

(** ** The forward pass of the quantizer, row by row *)

Section ForwardFacts.
Context {R : Type} `{Scalar R}.
Variable L : losses_module R.
Hypothesis HL : sed_shape L.
Variable s : VectorQuantizer.self R.
Local Abbreviation K := VectorQuantizer.codebook_size.
Hypothesis HK : length (VectorQuantizer.codebook s) = K.

Lemma encoding_indices_lookup (x : tensor R) (p : nat) (drow : list R) :
  rows (VectorQuantizer.distances L s x) !! p = Some drow ->
  ivals (VectorQuantizer.encoding_indices L s x) !! p = Some (Z.of_nat (argmin drow)).
Proof.
  intros Hd. unfold VectorQuantizer.encoding_indices, jnp_argmin. cbn [ivals].
  by rewrite list_lookup_fmap, Hd.
Qed.

Lemma encoding_indices_range (x : tensor R) :
  in_range K (VectorQuantizer.encoding_indices L s x).
Proof.
  unfold in_range, VectorQuantizer.encoding_indices, jnp_argmin. simpl.
  rewrite Forall_fmap. apply Forall_forall. intros drow Hin. simpl.
  pose proof (argmin_row_bound L HL s HK x drow Hin). lia.
Qed.

Lemma quantized_lookup (x : tensor R) (p : nat) (drow : list R) :
  rows (VectorQuantizer.distances L s x) !! p = Some drow ->
  rows (VectorQuantizer.quantized L s x) !! p
  = Some (dot_row (one_hot_row K (Z.of_nat (argmin drow))) (VectorQuantizer.codebook s)).
Proof.
  intros Hd.
  unfold VectorQuantizer.quantized, VectorQuantizer.quantize, jnp_dot,
    VectorQuantizer.encodings, one_hot. cbn [rows ivals].
  rewrite !list_lookup_fmap. by rewrite (encoding_indices_lookup x p drow Hd).
Qed.
End ForwardFacts.

(** C7: every entry of encoding_indices lies in [0, codebook_size), for
    every input feature grid, the codebook having its codebook_size = 1024
    rows. *)
Theorem encoding_indices_in_range {R : Type} `{Scalar R}
    (L : losses_module R) (s : VectorQuantizer.self R) (x : tensor R) :
  sed_shape L ->
  length (VectorQuantizer.codebook s) = VectorQuantizer.codebook_size ->
  VectorQuantizer.codebook_size = 1024 /\
  in_range VectorQuantizer.codebook_size (VectorQuantizer.encoding_indices L s x).
Proof.
  intros HL HK. split; [done|]. by apply encoding_indices_range.
Qed.

Lemma encoding_indices_in_range_witness :
  let s := Sample.vq false Sample.ramp_codebook in
  let x := Sample.two_pixels r1 Sample.third in
  sed_shape Sample.losses /\
  length (VectorQuantizer.codebook s) = VectorQuantizer.codebook_size /\
  VectorQuantizer.codebook_size = 1024 /\
  in_range VectorQuantizer.codebook_size
    (VectorQuantizer.encoding_indices Sample.losses s x).
Proof.
  intros s x.
  split; [apply sample_losses_shape|].
  split; [by vm_compute|].
  apply (encoding_indices_in_range Sample.losses s x);
    [apply sample_losses_shape | by vm_compute].
Defined.

(** C8: at every position the one-hot encodings sum to exactly one along
    the code axis. *)
Theorem encodings_sum_to_one {R : Type} `{Scalar R} `{!UnitLaws R}
    (L : losses_module R) (s : VectorQuantizer.self R) (x : tensor R) :
  sed_shape L ->
  length (VectorQuantizer.codebook s) = VectorQuantizer.codebook_size ->
  chan (VectorQuantizer.encodings L s x) = VectorQuantizer.codebook_size /\
  length (rows (VectorQuantizer.encodings L s x)) = length (rows x) /\
  Forall (fun r => rsum r = r1) (rows (VectorQuantizer.encodings L s x)).
Proof.
  intros HL HK. split; [done|]. split.
  - unfold VectorQuantizer.encodings, one_hot, VectorQuantizer.encoding_indices,
      jnp_argmin. simpl. rewrite !length_map.
    by destruct (distances_rows L HL s HK x).
  - unfold VectorQuantizer.encodings, one_hot. simpl.
    rewrite Forall_fmap.
    eapply Forall_impl; [apply (encoding_indices_range L HL s HK x)|].
    intros i Hi. cbv beta in Hi |- *.
    rewrite <- (Z2Nat.id i) by lia.
    apply one_hot_row_sum. lia.
Qed.

Lemma encodings_sum_to_one_witness :
  let s := Sample.vq false Sample.ramp_codebook in
  let x := Sample.two_pixels r1 Sample.third in
  sed_shape Sample.losses /\
  length (VectorQuantizer.codebook s) = VectorQuantizer.codebook_size /\
  chan (VectorQuantizer.encodings Sample.losses s x) = VectorQuantizer.codebook_size /\
  length (rows (VectorQuantizer.encodings Sample.losses s x)) = length (rows x) /\
  Forall (fun r => rsum r = r1)
    (rows (VectorQuantizer.encodings Sample.losses s x)).
Proof.
  intros s x.
  split; [apply sample_losses_shape|].
  split; [by vm_compute|].
  apply (encodings_sum_to_one Sample.losses s x);
    [apply sample_losses_shape | by vm_compute].
Defined.

(** The sample grid [1; 1/3] against the codes -3, -2.5, ..., 508.5: the
    nearest codes are 1 (index 8) and 0.5 (index 7). *)
Example nearest_code_sample :
  let s := Sample.vq false Sample.ramp_codebook in
  let x := Sample.two_pixels r1 Sample.third in
  ivals (VectorQuantizer.encoding_indices Sample.losses s x) = [8; 7]%Z /\
  rows (VectorQuantizer.quantized Sample.losses s x) = [[r1]; [Sample.half]].
Proof. intros s x. split; by vm_compute. Qed.

Lemma sed_spec_shape {R : Type} `{Scalar R} (L : losses_module R) :
  sed_spec L -> sed_shape L.
Proof. intros HL a b. rewrite HL. apply all_pairs_sqdist_shape. Qed.

(** Row [p] of the distance array holds the distances from the feature
    vector at [p] to the codebook entries, in the order of the codebook. *)
Lemma distances_row_spec {R : Type} `{Scalar R} (L : losses_module R)
    (s : VectorQuantizer.self R) (x : tensor R) (p : nat) (v : list R) :
  sed_spec L ->
  rows x !! p = Some v ->
  rows (VectorQuantizer.distances L s x) !! p
  = Some (map (sqdist v) (VectorQuantizer.codebook s)).
Proof.
  intros HL Hp. unfold VectorQuantizer.distances. cbn [rows].
  rewrite HL. unfold all_pairs_sqdist. by rewrite list_lookup_fmap, Hp.
Qed.

(** C2, as the code has it: at every position [p] of the feature grid at
    which no squared distance to a codebook entry is NaN,
    encoding_indices[p] is the least index in [0, codebook_size) at which
    the squared Euclidean distance between the feature vector at [p] and
    the codebook entry is minimal: no entry is nearer than the selected
    one, and every entry of lower index is strictly farther.  The
    quantized vector at [p] is the product of the one-hot row of that
    index with the codebook. *)
Theorem nearest_code_selected {R : Type} `{Scalar R} `{!OrderLaws R}
    (L : losses_module R) (s : VectorQuantizer.self R) (x : tensor R)
    (p : nat) (v : list R) :
  sed_spec L ->
  length (VectorQuantizer.codebook s) = VectorQuantizer.codebook_size ->
  nan_free (map (sqdist v) (VectorQuantizer.codebook s)) ->
  rows x !! p = Some v ->
  exists (idx : nat) (code : list R),
    ivals (VectorQuantizer.encoding_indices L s x) !! p = Some (Z.of_nat idx) /\
    idx < VectorQuantizer.codebook_size /\
    VectorQuantizer.codebook s !! idx = Some code /\
    (forall (k : nat) (c : list R),
       VectorQuantizer.codebook s !! k = Some c ->
       rltb (sqdist v c) (sqdist v code) = false /\
       (k < idx -> rltb (sqdist v code) (sqdist v c) = true)) /\
    rows (VectorQuantizer.quantized L s x) !! p
    = Some (dot_row (one_hot_row VectorQuantizer.codebook_size (Z.of_nat idx))
              (VectorQuantizer.codebook s)).
Proof.
  intros HLs HK Hnan Hp.
  pose proof (sed_spec_shape L HLs) as HL.
  pose proof (distances_row_spec L s x p v HLs Hp) as Hd.
  set (drow := map (sqdist v) (VectorQuantizer.codebook s)) in *.
  assert (Hlen : length drow = VectorQuantizer.codebook_size)
    by (unfold drow; by rewrite length_map).
  assert (Hidx : argmin drow < VectorQuantizer.codebook_size).
  { apply (argmin_row_bound L HL s HK x). by apply list_elem_of_lookup_2 with p. }
  destruct (lookup_lt_is_Some_2 (VectorQuantizer.codebook s) (argmin drow))
    as [code Hcode]; [lia|].
  assert (Hmin : first_min drow (argmin drow)).
  { apply argmin_first_min; [|done].
    intros E. rewrite E in Hlen. simpl in Hlen. pose proof codebook_size_pos. lia. }
  destruct Hmin as (m & Hm & Hall).
  assert (Em : m = sqdist v code).
  { change (drow !! argmin drow)
      with (map (sqdist v) (VectorQuantizer.codebook s) !! argmin drow) in Hm.
    rewrite list_lookup_fmap, Hcode in Hm. simpl in Hm. congruence. }
  subst m.
  exists (argmin drow), code.
  split; [by apply encoding_indices_lookup|].
  split; [done|]. split; [done|].
  split; [|by apply quantized_lookup].
  intros k c Hk. apply (Hall k). unfold drow. by rewrite list_lookup_fmap, Hk.
Qed.

Lemma nan_free_row_forallb {R : Type} `{Scalar R} (l : list R) :
  forallb (fun v => negb (is_nan v)) l = true -> nan_free l.
Proof.
  intros Hl. rewrite forallb_forall in Hl.
  apply Forall_forall. intros v Hv. apply negb_true_iff, Hl.
  by apply list_elem_of_In.
Qed.

Lemma nearest_code_selected_witness :
  let s := Sample.vq false Sample.ramp_codebook in
  let x := Sample.two_pixels r1 Sample.third in
  sed_spec Sample.losses /\
  length (VectorQuantizer.codebook s) = VectorQuantizer.codebook_size /\
  nan_free (map (sqdist [Sample.third]) (VectorQuantizer.codebook s)) /\
  rows x !! 1 = Some [Sample.third] /\
  exists (idx : nat) (code : list F32.t),
    ivals (VectorQuantizer.encoding_indices Sample.losses s x) !! 1 = Some (Z.of_nat idx) /\
    idx < VectorQuantizer.codebook_size /\
    VectorQuantizer.codebook s !! idx = Some code /\
    (forall (k : nat) (c : list F32.t),
       VectorQuantizer.codebook s !! k = Some c ->
       rltb (sqdist [Sample.third] c) (sqdist [Sample.third] code) = false /\
       (k < idx -> rltb (sqdist [Sample.third] code) (sqdist [Sample.third] c) = true)) /\
    rows (VectorQuantizer.quantized Sample.losses s x) !! 1
    = Some (dot_row (one_hot_row VectorQuantizer.codebook_size (Z.of_nat idx))
              (VectorQuantizer.codebook s)).
Proof.
  intros s x.
  assert (HL : sed_spec Sample.losses) by (intros a b; reflexivity).
  assert (Hnan : nan_free (map (sqdist [Sample.third]) (VectorQuantizer.codebook s)))
    by (apply nan_free_row_forallb; vm_compute; reflexivity).
  split; [exact HL|].
  split; [vm_compute; reflexivity|].
  split; [exact Hnan|].
  split; [reflexivity|].
  exact (nearest_code_selected Sample.losses s x 1 [Sample.third]
           HL eq_refl Hnan eq_refl).
Defined.

(** With a NaN in codebook entry 3, the feature 1.0 is assigned index 3,
    whose distance is NaN, although entry 8 is at distance 0: the index
    selected is not one of least distance. *)
Lemma nan_distance_selected :
  let s := Sample.vq false (<[3 := [rnan]]> Sample.ramp_codebook) in
  let x := Sample.pixel r1 in
  let v := [r1 : F32.t] in
  (sed_spec Sample.losses /\
   length (VectorQuantizer.codebook s) = VectorQuantizer.codebook_size /\
   rows x !! 0 = Some v) /\
  ivals (VectorQuantizer.encoding_indices Sample.losses s x) !! 0 = Some 3%Z /\
  (exists c : list F32.t,
     VectorQuantizer.codebook s !! 3 = Some c /\ is_nan (sqdist v c) = true) /\
  (exists c : list F32.t,
     VectorQuantizer.codebook s !! 8 = Some c /\ sqdist v c = r0) /\
  ~ (exists (idx : nat) (code : list F32.t),
       ivals (VectorQuantizer.encoding_indices Sample.losses s x) !! 0
         = Some (Z.of_nat idx) /\
       idx < VectorQuantizer.codebook_size /\
       VectorQuantizer.codebook s !! idx = Some code /\
       (forall (k : nat) (c : list F32.t),
          VectorQuantizer.codebook s !! k = Some c ->
          rltb (sqdist v c) (sqdist v code) = false /\
          (k < idx -> rltb (sqdist v code) (sqdist v c) = true)) /\
       rows (VectorQuantizer.quantized Sample.losses s x) !! 0
       = Some (dot_row (one_hot_row VectorQuantizer.codebook_size (Z.of_nat idx))
                 (VectorQuantizer.codebook s))).
Proof.
  intros s x v.
  assert (Hsel : ivals (VectorQuantizer.encoding_indices Sample.losses s x) !! 0
                 = Some 3%Z) by (vm_compute; reflexivity).
  split.
  { split; [intros a b; reflexivity|]. split; [vm_compute; reflexivity|reflexivity]. }
  split; [exact Hsel|].
  split; [exists [rnan]; split; vm_compute; reflexivity|].
  split; [exists [r1]; split; vm_compute; reflexivity|].
  intros (idx & code & Hidx & _ & Hcode & Hmin & _).
  rewrite Hsel in Hidx.
  assert (E : idx = 3) by (injection Hidx as E; lia).
  subst idx.
  assert (Hc : VectorQuantizer.codebook s !! 3 = Some [rnan])
    by (vm_compute; reflexivity).
  rewrite Hc in Hcode. injection Hcode as <-.
  assert (H0 : VectorQuantizer.codebook s !! 0 = Some [rofZ (-3) : F32.t])
    by (vm_compute; reflexivity).
  destruct (Hmin 0 _ H0) as [_ Hlt].
  specialize (Hlt ltac:(lia)). by vm_compute in Hlt.
Qed.

(** ** [decode_ids] against the one-hot product *)

Section GatherFacts.
Context {R : Type} `{Scalar R} `{Inexact R} `{!GatherLaws R}.

Lemma take_row_in_range (m : list (list R)) (i : Z) :
  (0 <= i < Z.of_nat (length m))%Z ->
  m !! Z.to_nat i = Some (take_row m i).
Proof.
  intros Hi. unfold take_row.
  destruct (Z.ltb_spec i 0) as [?|_]; [lia|].
  destruct (Z.leb_spec 0 i) as [_|?]; [|lia].
  destruct (Z.ltb_spec i (Z.of_nat (length m))) as [_|?]; [|lia].
  simpl.
  destruct (lookup_lt_is_Some_2 m (Z.to_nat i)) as [row Hrow]; [lia|].
  by rewrite nth_lookup, Hrow.
Qed.

Lemma take_is_dot (m : list (list R)) (ids : itensor) :
  Forall (fun r => length r = width m) m ->
  regular_matrix m ->
  in_range (length m) ids ->
  jnp_take m ids = jnp_dot (one_hot ids (length m)) m.
Proof.
  intros Hrect Hreg Hids. unfold jnp_take, jnp_dot, one_hot. simpl.
  f_equal. rewrite map_map. apply map_ext_in. intros i Hi.
  unfold in_range in Hids. rewrite Forall_forall in Hids.
  apply list_elem_of_In in Hi. specialize (Hids i Hi). cbv beta in Hids.
  pose proof (take_row_in_range m i Hids) as Hrow.
  rewrite <- (Z2Nat.id i) at 2 by lia.
  symmetry. by apply dot_row_one_hot.
Qed.
End GatherFacts.

Lemma call_encoding_indices {R : Type} `{Scalar R} `{!Reduction R}
    (L : losses_module R) (s : VectorQuantizer.self R) (x : tensor R) :
  snd (VectorQuantizer.call L s x) !! "encoding_indices"
  = Some (VIndices (VectorQuantizer.encoding_indices L s x)).
Proof.
  unfold VectorQuantizer.call. cbn [snd].
  rewrite lookup_insert_ne by done. by rewrite lookup_insert_eq.
Qed.

(** C5, as the code has it: for a rectangular codebook whose entries are
    regular (in binary32: finite and not the negative zero) and an index
    array with entries in [0, codebook_size), decode_ids (the gather of
    codebook rows) returns what the one-hot product quantize(one_hot(ids))
    returns; hence, with this quantizer in the autoencoder,
    decode_from_indices(encode_to_indices(image)) is the decoding of the
    quantized grid looked up for the same indices. *)
Theorem decode_ids_agrees_with_quantize {R : Type}
    `{Scalar R} `{Inexact R} `{!Reduction R}
    `{!GatherLaws R}
    (L : losses_module R) (s : VectorQuantizer.self R)
    (nn : layers_module (tensor R)) (vae : VQVAE.self) :
  sed_shape L ->
  length (VectorQuantizer.codebook s) = VectorQuantizer.codebook_size ->
  Forall (fun r => length r = width (VectorQuantizer.codebook s))
    (VectorQuantizer.codebook s) ->
  regular_matrix (VectorQuantizer.codebook s) ->
  (forall ids : itensor,
     in_range VectorQuantizer.codebook_size ids ->
     VectorQuantizer.decode_ids s ids
     = VectorQuantizer.quantize s (one_hot ids VectorQuantizer.codebook_size)) /\
  (forall image : tensor R,
     exists ids : itensor,
       VQVAE.encode_to_indices nn (vector_quantizer L s) vae (Plain image) = Some ids /\
       in_range VectorQuantizer.codebook_size ids /\
       VQVAE.decode_from_indices nn (vector_quantizer L s) vae (Plain ids)
       = Some (VQVAE.decode nn vae
                 (VectorQuantizer.quantize s (one_hot ids VectorQuantizer.codebook_size)))).
Proof.
  intros HL HK Hrect Hreg.
  assert (Hagree : forall ids : itensor,
            in_range VectorQuantizer.codebook_size ids ->
            VectorQuantizer.decode_ids s ids
            = VectorQuantizer.quantize s (one_hot ids VectorQuantizer.codebook_size)).
  { intros ids Hids. unfold VectorQuantizer.decode_ids, VectorQuantizer.quantize.
    rewrite <- HK in *. by apply take_is_dot. }
  split; [done|].
  intros image.
  exists (VectorQuantizer.encoding_indices L s (VQVAE.encoder nn vae image)).
  assert (Hrange := encoding_indices_range L HL s HK (VQVAE.encoder nn vae image)).
  split; [|split; [done|]].
  - unfold VQVAE.encode_to_indices. cbn [mbind option_bind vector_quantizer q_call].
    by rewrite call_encoding_indices.
  - unfold VQVAE.decode_from_indices. cbn [mbind option_bind vector_quantizer q_decode_ids].
    by rewrite Hagree.
Qed.

Lemma ramp_codebook_regular : regular_matrix Sample.ramp_codebook.
Proof. apply (forallb2_Forall F32.is_regular). by vm_compute. Qed.

Lemma ramp_codebook_rectangular :
  Forall (fun r => length r = width Sample.ramp_codebook) Sample.ramp_codebook.
Proof.
  unfold Sample.ramp_codebook. rewrite Forall_fmap.
  apply Forall_forall. intros k _. reflexivity.
Qed.

Lemma decode_ids_agrees_with_quantize_witness :
  let s := Sample.vq false Sample.ramp_codebook in
  let vae := {| VQVAE.train := false |} in
  let q := vector_quantizer Sample.losses s in
  sed_shape Sample.losses /\
  length (VectorQuantizer.codebook s) = VectorQuantizer.codebook_size /\
  Forall (fun r => length r = width (VectorQuantizer.codebook s))
    (VectorQuantizer.codebook s) /\
  regular_matrix (VectorQuantizer.codebook s) /\
  (forall ids : itensor,
     in_range VectorQuantizer.codebook_size ids ->
     VectorQuantizer.decode_ids s ids
     = VectorQuantizer.quantize s (one_hot ids VectorQuantizer.codebook_size)) /\
  (forall image : tensor F32.t,
     exists ids : itensor,
       VQVAE.encode_to_indices Sample.layers q vae (Plain image) = Some ids /\
       in_range VectorQuantizer.codebook_size ids /\
       VQVAE.decode_from_indices Sample.layers q vae (Plain ids)
       = Some (VQVAE.decode Sample.layers vae
                 (VectorQuantizer.quantize s (one_hot ids VectorQuantizer.codebook_size)))).
Proof.
  intros s vae q.
  split; [apply sample_losses_shape|].
  split; [by vm_compute|].
  split; [apply ramp_codebook_rectangular|].
  split; [apply ramp_codebook_regular|].
  exact (decode_ids_agrees_with_quantize Sample.losses s Sample.layers vae
           sample_losses_shape eq_refl ramp_codebook_rectangular ramp_codebook_regular).
Defined.

(** C5 as stated fails: with an infinite entry in the codebook (here in
    entry 0) the one-hot product is NaN at every index, since 0 * inf is
    NaN, while decode_ids reads the row: at the in-range index 7 it
    returns 0.5 and quantize(one_hot(7)) returns NaN. *)
Lemma one_hot_product_not_a_gather :
  let s := Sample.vq false (<[0 := [S754_infinity false]]> Sample.ramp_codebook) in
  let ids := ITensor [1] [7%Z] in
  (length (VectorQuantizer.codebook s) = VectorQuantizer.codebook_size /\
   in_range VectorQuantizer.codebook_size ids) /\
  rows (VectorQuantizer.decode_ids s ids) = [[Sample.half]] /\
  rows (VectorQuantizer.quantize s (one_hot ids VectorQuantizer.codebook_size))
    = [[S754_nan]] /\
  VectorQuantizer.decode_ids s ids
    <> VectorQuantizer.quantize s (one_hot ids VectorQuantizer.codebook_size).
Proof.
  intros s ids.
  assert (H1 : rows (VectorQuantizer.decode_ids s ids) = [[Sample.half]])
    by (vm_compute; reflexivity).
  assert (H2 : rows (VectorQuantizer.quantize s
                       (one_hot ids VectorQuantizer.codebook_size))
               = [[S754_nan]]) by (vm_compute; reflexivity).
  split.
  { split; [vm_compute; reflexivity|].
    unfold in_range, ids. cbn [ivals]. repeat constructor; by vm_compute. }
  split; [exact H1|]. split; [exact H2|].
  intros E. pose proof (f_equal rows E) as Er.
  rewrite H1, H2 in Er. by vm_compute in Er.
Qed.

Example decode_ids_sample :
  let s := Sample.vq false Sample.ramp_codebook in
  let ids := ITensor [3] [0; 7; 1023]%Z in
  rows (VectorQuantizer.decode_ids s ids)
    = [[S754_finite true 12582912 (-22)]; [S754_finite false 8388608 (-24)];
       [S754_finite false 16662528 (-15)]] /\
  rows (VectorQuantizer.quantize s (one_hot ids VectorQuantizer.codebook_size))
    = rows (VectorQuantizer.decode_ids s ids).
Proof. intros s ids. split; by vm_compute. Qed.


(** ** The straight-through output *)

Lemma zip_passthrough {R : Type} `{Scalar R} (a q : list R) :
  Forall2 (fun u v => radd u (rsub v u) = v) a q ->
  zip_with radd a (zip_with rsub q a) = q.
Proof. induction 1 as [|u v a q Huv _ IH]; simpl; [done|]. by rewrite Huv, IH. Qed.

Lemma rows_passthrough {R : Type} `{Scalar R} (x q : list (list R)) :
  Forall2 (Forall2 (fun u v => radd u (rsub v u) = v)) x q ->
  zip_with (zip_with radd) x (zip_with (zip_with rsub) q x) = q.
Proof.
  induction 1 as [|a b x q Hab _ IH]; simpl; [done|].
  by rewrite zip_passthrough, IH.
Qed.

Lemma tadd_tsub_passthrough {R : Type} `{Scalar R} (x q : tensor R) :
  passthrough_exact x q ->
  tadd x (stop_gradient (tsub q x)) = Tensor (lead x) (chan x) (rows q).
Proof.
  intros Hexact. unfold stop_gradient, tadd, tsub, tzip. cbn [lead chan rows].
  by rewrite (rows_passthrough _ _ Hexact).
Qed.

(** C1, as the code has it: in training mode the returned tensor is
    raw + (quantized - raw) computed in the dtype; it equals the
    nearest-codebook value quantized = dot(one_hot(argmin distances),
    codebook) whenever that rewrite is exact at every entry, as it always
    is in exact arithmetic. *)
Theorem straight_through_value {R : Type} `{Scalar R} `{!Reduction R}
    (L : losses_module R) (s : VectorQuantizer.self R) (x : tensor R) :
  VectorQuantizer.train s = true ->
  chan x = width (VectorQuantizer.codebook s) ->
  passthrough_exact x (VectorQuantizer.quantized L s x) ->
  fst (VectorQuantizer.call L s x) = VectorQuantizer.straight_through L s x /\
  VectorQuantizer.straight_through L s x = VectorQuantizer.quantized L s x /\
  VectorQuantizer.quantized L s x
  = jnp_dot (one_hot (jnp_argmin (VectorQuantizer.distances L s x))
               VectorQuantizer.codebook_size)
      (VectorQuantizer.codebook s).
Proof.
  intros Htrain Hchan Hexact.
  split; [unfold VectorQuantizer.call; by rewrite Htrain|].
  split; [|done].
  unfold VectorQuantizer.straight_through.
  rewrite (tadd_tsub_passthrough _ _ Hexact), Hchan.
  set (q := VectorQuantizer.quantized L s x).
  change (lead x) with (lead q).
  change (width (VectorQuantizer.codebook s)) with (chan q).
  by destruct q.
Qed.

Lemma straight_through_value_witness :
  let s := Sample.vq true Sample.ramp_codebook in
  let x := Sample.two_pixels r1 Sample.third in
  VectorQuantizer.train s = true /\
  chan x = width (VectorQuantizer.codebook s) /\
  passthrough_exact x (VectorQuantizer.quantized Sample.losses s x) /\
  fst (VectorQuantizer.call Sample.losses s x)
  = VectorQuantizer.quantized Sample.losses s x.
Proof.
  intros s x.
  assert (Hq : rows (VectorQuantizer.quantized Sample.losses s x)
               = [[r1]; [Sample.half]]) by (by vm_compute).
  assert (Hexact : passthrough_exact x (VectorQuantizer.quantized Sample.losses s x)).
  { unfold passthrough_exact. rewrite Hq.
    repeat constructor; by vm_compute. }
  split; [reflexivity|]. split; [reflexivity|]. split; [exact Hexact|].
  destruct (straight_through_value Sample.losses s x eq_refl eq_refl Hexact)
    as (H1 & H2 & _).
  by rewrite H1, H2.
Defined.

(** C1 as stated fails in binary32: with every code equal to
    float32(1/3) and the feature 1.0, the difference rounds to
    -0.6666666269 and the returned value is 11184812 * 2^-25, one unit in
    the last place above the code 11184811 * 2^-25. *)
Lemma straight_through_rounds :
  let s := Sample.vq true (Sample.constant_codebook Sample.third) in
  let x := Sample.pixel r1 in
  VectorQuantizer.train s = true /\
  rows (VectorQuantizer.quantized Sample.losses s x)
    = [[S754_finite false 11184811 (-25)]] /\
  rows (fst (VectorQuantizer.call Sample.losses s x))
    = [[S754_finite false 11184812 (-25)]] /\
  fst (VectorQuantizer.call Sample.losses s x)
    <> VectorQuantizer.quantized Sample.losses s x.
Proof.
  intros s x.
  assert (Hq : rows (VectorQuantizer.quantized Sample.losses s x)
               = [[S754_finite false 11184811 (-25)]]) by (by vm_compute).
  assert (Hc : rows (fst (VectorQuantizer.call Sample.losses s x))
               = [[S754_finite false 11184812 (-25)]]) by (by vm_compute).
  split; [reflexivity|]. split; [done|]. split; [done|].
  intros Heq. rewrite Heq, Hq in Hc. discriminate Hc.
Qed.

(** ** The result dictionary *)

Section DictFacts.
Context {R : Type} `{Scalar R} `{!Reduction R}.
Variable L : losses_module R.
Variable s : VectorQuantizer.self R.
Variable x : tensor R.

Lemma call_raw :
  snd (VectorQuantizer.call L s x) !! "raw" = Some (VTensor x).
Proof. unfold VectorQuantizer.call. cbn [snd]. by rewrite lookup_insert_eq. Qed.

Lemma call_encodings :
  snd (VectorQuantizer.call L s x) !! "encodings"
  = Some (VTensor (VectorQuantizer.encodings L s x)).
Proof.
  unfold VectorQuantizer.call. cbn [snd].
  rewrite !lookup_insert_ne by done. by rewrite lookup_insert_eq.
Qed.

Lemma call_losses :
  VectorQuantizer.train s = true ->
  snd (VectorQuantizer.call L s x) !! "quantizer_loss"
    = Some (VScalar (VectorQuantizer.loss L s x)) /\
  snd (VectorQuantizer.call L s x) !! "e_latent_loss"
    = Some (VScalar (VectorQuantizer.e_latent_loss L s x)) /\
  snd (VectorQuantizer.call L s x) !! "q_latent_loss"
    = Some (VScalar (VectorQuantizer.q_latent_loss L s x)) /\
  snd (VectorQuantizer.call L s x) !! "entropy_loss"
    = Some (VScalar (VectorQuantizer.entropy_loss_term L s x)).
Proof.
  intros Ht. unfold VectorQuantizer.call. cbn [snd]. rewrite Ht.
  repeat split;
    repeat (rewrite lookup_insert_ne by done); by rewrite lookup_insert_eq.
Qed.

Lemma call_dom :
  dom (snd (VectorQuantizer.call L s x))
  = list_to_set ["encodings"; "encoding_indices"; "raw"]%string
    ∪ (if VectorQuantizer.train s then list_to_set loss_keys else (∅ : gset string)).
Proof.
  unfold VectorQuantizer.call, loss_keys. cbn [snd].
  destruct (VectorQuantizer.train s);
    rewrite !dom_insert_L, dom_empty_L; cbn [list_to_set foldr]; set_solver.
Qed.
End DictFacts.

(** C3, as the code has it: the forward pass returns a pair, the quantized
    output and the result record.  The record holds the one-hot encodings,
    the encoding indices and the raw features; it holds the four loss
    components if and only if the quantizer is in training mode; it has no
    other entry, so the quantized output is the first component of the
    pair and not an entry of the record. *)
Theorem result_record_entries {R : Type} `{Scalar R} `{!Reduction R}
    (L : losses_module R) (s : VectorQuantizer.self R) (x : tensor R) :
  let out := fst (VectorQuantizer.call L s x) in
  let d := snd (VectorQuantizer.call L s x) in
  out = (if VectorQuantizer.train s
         then VectorQuantizer.straight_through L s x
         else VectorQuantizer.quantized L s x) /\
  d !! "encodings" = Some (VTensor (VectorQuantizer.encodings L s x)) /\
  d !! "encoding_indices" = Some (VIndices (VectorQuantizer.encoding_indices L s x)) /\
  d !! "raw" = Some (VTensor x) /\
  (forall k, k ∈ loss_keys -> (is_Some (d !! k) <-> VectorQuantizer.train s = true)) /\
  dom d = list_to_set ["encodings"; "encoding_indices"; "raw"]%string
          ∪ (if VectorQuantizer.train s then list_to_set loss_keys else ∅).
Proof.
  intros out d. subst out d.
  split; [unfold VectorQuantizer.call; by destruct (VectorQuantizer.train s)|].
  split; [apply call_encodings|].
  split; [apply call_encoding_indices|].
  split; [apply call_raw|].
  split; [|apply call_dom].
  intros k Hk. rewrite <- elem_of_dom, call_dom.
  unfold loss_keys in *. cbn [list_to_set foldr] in *.
  destruct (VectorQuantizer.train s); split; [done| |intros Hin; exfalso|done].
  - intros _. rewrite !elem_of_union, !elem_of_singleton.
    repeat (apply elem_of_cons in Hk; destruct Hk as [->|Hk]);
      [tauto..|by apply elem_of_nil in Hk].
  - rewrite !elem_of_union, !elem_of_singleton, elem_of_empty in Hin.
    repeat (apply elem_of_cons in Hk; destruct Hk as [->|Hk]);
      [intuition discriminate..|by apply elem_of_nil in Hk].
Qed.

(** C3 as stated fails: in the record of this forward pass no entry holds
    the quantized output. *)
Lemma result_record_lacks_quantized :
  let s := Sample.vq false Sample.ramp_codebook in
  let x := Sample.pixel Sample.third in
  ~ exists k : string,
      snd (VectorQuantizer.call Sample.losses s x) !! k
      = Some (VTensor (fst (VectorQuantizer.call Sample.losses s x))).
Proof.
  intros s x [k Hk].
  assert (Hout : rows (fst (VectorQuantizer.call Sample.losses s x)) = [[Sample.half]])
    by (by vm_compute).
  assert (Hchan : chan (fst (VectorQuantizer.call Sample.losses s x)) = 1)
    by (by vm_compute).
  assert (Hcases : k = "encodings" \/ k = "encoding_indices" \/ k = "raw").
  { assert (Hdom : k ∈ dom (snd (VectorQuantizer.call Sample.losses s x))).
    { apply elem_of_dom. by rewrite Hk. }
    rewrite call_dom in Hdom. change (VectorQuantizer.train s) with false in Hdom.
    cbn [list_to_set foldr] in Hdom.
    rewrite !elem_of_union, !elem_of_singleton, elem_of_empty in Hdom.
    tauto. }
  destruct Hcases as [-> | [-> | ->]].
  - rewrite call_encodings in Hk.
    pose proof (f_equal (fun o => match o with
                                  | Some (VTensor t) => chan t
                                  | _ => 0
                                  end) Hk) as Hc.
    cbv beta iota in Hc. rewrite Hchan in Hc. discriminate Hc.
  - rewrite call_encoding_indices in Hk. discriminate Hk.
  - rewrite call_raw in Hk.
    pose proof (f_equal (fun o => match o with
                                  | Some (VTensor t) => rows t
                                  | _ => []
                                  end) Hk) as Hr.
    cbv beta iota in Hr. rewrite Hout in Hr. by vm_compute in Hr.
Qed.

(** ** [decode_ids] out of range *)

(** C10, as the code has it: decode_ids returns for every integer index
    array, of any values, an array of the shape of the indices with one
    row per index.  An index in [0, n) reads that codebook row, an index
    in [-n, 0) reads row [i + n], and any other index yields a row of NaN:
    the default mode of jnp.take is "fill", it does not clamp. *)
Theorem decode_ids_total {R : Type} `{Scalar R} `{Inexact R}
    (s : VectorQuantizer.self R) (ids : itensor) :
  let cb := VectorQuantizer.codebook s in
  let n := Z.of_nat (length cb) in
  lead (VectorQuantizer.decode_ids s ids) = ishape ids /\
  chan (VectorQuantizer.decode_ids s ids) = width cb /\
  length (rows (VectorQuantizer.decode_ids s ids)) = length (ivals ids) /\
  forall (p : nat) (i : Z),
    ivals ids !! p = Some i ->
    exists row,
      rows (VectorQuantizer.decode_ids s ids) !! p = Some row /\
      ((0 <= i < n)%Z -> cb !! Z.to_nat i = Some row) /\
      ((- n <= i < 0)%Z -> cb !! Z.to_nat (i + n) = Some row) /\
      ((i < - n \/ n <= i)%Z -> row = repeat rnan (width cb)).
Proof.
  intros cb n. unfold VectorQuantizer.decode_ids, jnp_take. cbn [lead chan rows].
  split; [done|]. split; [done|]. split; [by rewrite length_map|].
  intros p i Hp. exists (take_row cb i).
  split; [by rewrite list_lookup_fmap, Hp|].
  unfold take_row. fold n.
  destruct (Z.ltb_spec i 0) as [Hneg|Hpos].
  - destruct (Z.leb_spec 0 (i + n)) as [Hlo|Hlo];
      destruct (Z.ltb_spec (i + n) n) as [Hhi|Hhi]; cbn [andb];
      (split; [lia|]); (split; [|try done; lia]); intros Hi; try lia.
    destruct (lookup_lt_is_Some_2 cb (Z.to_nat (i + n))) as [row Hrow]; [lia|].
    by rewrite nth_lookup, Hrow.
  - destruct (Z.leb_spec 0 i) as [_|?]; [|lia].
    destruct (Z.ltb_spec i n) as [Hhi|Hhi]; cbn [andb];
      (split; [|split; [lia|try done; lia]]); intros Hi; try lia.
    destruct (lookup_lt_is_Some_2 cb (Z.to_nat i)) as [row Hrow]; [lia|].
    by rewrite nth_lookup, Hrow.
Qed.

(** C10 as stated fails: the index 1024, one past the last code, does not
    read the last codebook row 508.5, nor any row: it yields NaN; and the
    index -1 reads the last row, not the first. *)
Lemma decode_ids_does_not_clamp :
  let s := Sample.vq false Sample.ramp_codebook in
  let cb := VectorQuantizer.codebook s in
  let ids := ITensor [2] [1024%Z; (-1)%Z] in
  rows (VectorQuantizer.decode_ids s ids)
    = [[S754_nan]; [S754_finite false 16662528 (-15)]] /\
  map (fun i => nth (clip (length cb) i) cb []) (ivals ids)
    = [[S754_finite false 16662528 (-15)]; [S754_finite true 12582912 (-22)]] /\
  rows (VectorQuantizer.decode_ids s ids)
    <> map (fun i => nth (clip (length cb) i) cb []) (ivals ids) /\
  ~ In [S754_nan] cb.
Proof.
  intros s cb ids.
  assert (H1 : rows (VectorQuantizer.decode_ids s ids)
               = [[S754_nan]; [S754_finite false 16662528 (-15)]]) by (by vm_compute).
  assert (H2 : map (fun i => nth (clip (length cb) i) cb []) (ivals ids)
               = [[S754_finite false 16662528 (-15)]; [S754_finite true 12582912 (-22)]])
    by (by vm_compute).
  split; [done|]. split; [done|]. split.
  - rewrite H1, H2. discriminate.
  - intros Hin.
    assert (Hreg : forallb (forallb F32.is_regular) cb = true) by (by vm_compute).
    rewrite forallb_forall in Hreg. specialize (Hreg _ Hin). discriminate Hreg.
Qed.

(** ** The losses *)

Section LossFacts.
Context {R : Type} `{Scalar R} `{!SignLaws R} `{!Reduction R}.

(** In whatever order they are added, numbers that are not negative have
    a sum that is not negative. *)
Lemma tree_sum_nonneg (t : sum_tree) (l : list R) :
  Forall nonneg l -> nonneg (tree_sum t l).
Proof.
  intros Hl. induction t as [|i|a IHa b IHb]; simpl.
  - apply nonneg_0.
  - destruct (l !! i) as [v|] eqn:E.
    + rewrite (nth_lookup_Some _ _ _ _ E).
      rewrite Forall_lookup in Hl. by apply (Hl i).
    + rewrite nth_overflow by (by apply lookup_ge_None in E). apply nonneg_0.
  - by apply nonneg_add.
Qed.

Lemma flat_tmap (f : R -> R) (d : tensor R) : flat (tmap f d) = map f (flat d).
Proof.
  unfold flat, tmap. cbn [rows].
  induction (rows d) as [|r rs IH]; simpl; [done|].
  by rewrite map_app, IH.
Qed.

(** The mean of the squares of an array without NaN is not negative. *)
Lemma mean_square_nonneg (d : tensor R) :
  nan_free (flat d) ->
  posfin (rofZ (Z.of_nat (length (flat d)))) = true ->
  nonneg (jnp_mean (tsquare d)).
Proof.
  intros Hnan Hcount. unfold jnp_mean, tsquare.
  rewrite flat_tmap, length_map.
  apply nonneg_div; [|done].
  apply tree_sum_nonneg. rewrite Forall_fmap.
  eapply Forall_impl; [exact Hnan|].
  intros v Hv. by apply nonneg_square.
Qed.
End LossFacts.

(** C6, as the code has it: in training mode, for every feature grid for
    which no entry of quantized - raw is NaN and whose number of entries
    is positive and finite in the dtype, the commitment loss (mean squared
    error between the quantized vectors and the raw features, times 0.25)
    and the codebook loss (mean squared error between quantized vectors
    and raw features) are not negative, in whatever order the mean adds
    its terms, and the total quantizer loss is the sum of commitment loss,
    codebook loss and entropy loss. *)
Theorem quantizer_losses_nonneg {R : Type}
    `{Scalar R} `{!SignLaws R} `{!Reduction R}
    (L : losses_module R) (s : VectorQuantizer.self R) (x : tensor R) :
  VectorQuantizer.train s = true ->
  nan_free (flat (tsub (VectorQuantizer.quantized L s x) x)) ->
  posfin (rofZ (Z.of_nat (length (flat (tsub (VectorQuantizer.quantized L s x) x)))))
    = true ->
  posfin (rofQ VectorQuantizer.commitment_cost) = true ->
  exists e q ent total : R,
    snd (VectorQuantizer.call L s x) !! "e_latent_loss" = Some (VScalar e) /\
    snd (VectorQuantizer.call L s x) !! "q_latent_loss" = Some (VScalar q) /\
    snd (VectorQuantizer.call L s x) !! "entropy_loss" = Some (VScalar ent) /\
    snd (VectorQuantizer.call L s x) !! "quantizer_loss" = Some (VScalar total) /\
    e = rmul (jnp_mean (tsquare (tsub (stop_gradient (VectorQuantizer.quantized L s x)) x)))
          (rofQ 0.25) /\
    q = jnp_mean (tsquare (tsub (VectorQuantizer.quantized L s x) (stop_gradient x))) /\
    nonneg e /\
    nonneg q /\
    total = radd (radd e q) ent.
Proof.
  intros Htrain Hnan Hcount Hcc.
  destruct (call_losses L s x Htrain) as (Ht & He & Hq & Hent).
  eexists _, _, _, _.
  split; [exact He|]. split; [exact Hq|]. split; [exact Hent|]. split; [exact Ht|].
  split; [reflexivity|]. split; [reflexivity|].
  split; [|split; [|reflexivity]].
  - unfold VectorQuantizer.e_latent_loss, stop_gradient.
    apply nonneg_mul; [|done]. by apply mean_square_nonneg.
  - unfold VectorQuantizer.q_latent_loss, stop_gradient.
    by apply mean_square_nonneg.
Qed.

Lemma quantizer_losses_nonneg_witness :
  let s := Sample.vq true Sample.ramp_codebook in
  let x := Sample.two_pixels r1 Sample.third in
  VectorQuantizer.train s = true /\
  nan_free (flat (tsub (VectorQuantizer.quantized Sample.losses s x) x)) /\
  posfin (rofZ (Z.of_nat
     (length (flat (tsub (VectorQuantizer.quantized Sample.losses s x) x))))) = true /\
  posfin (rofQ VectorQuantizer.commitment_cost : F32.t) = true /\
  exists e q ent total : F32.t,
    snd (VectorQuantizer.call Sample.losses s x) !! "e_latent_loss" = Some (VScalar e) /\
    snd (VectorQuantizer.call Sample.losses s x) !! "q_latent_loss" = Some (VScalar q) /\
    snd (VectorQuantizer.call Sample.losses s x) !! "entropy_loss" = Some (VScalar ent) /\
    snd (VectorQuantizer.call Sample.losses s x) !! "quantizer_loss" = Some (VScalar total) /\
    e = rmul (jnp_mean (tsquare (tsub (stop_gradient
                 (VectorQuantizer.quantized Sample.losses s x)) x)))
          (rofQ 0.25) /\
    q = jnp_mean (tsquare (tsub (VectorQuantizer.quantized Sample.losses s x)
                            (stop_gradient x))) /\
    nonneg e /\
    nonneg q /\
    total = radd (radd e q) ent.
Proof.
  intros s x.
  assert (Hd : flat (tsub (VectorQuantizer.quantized Sample.losses s x) x)
               = [S754_zero false; S754_finite false 11184810 (-26)])
    by (vm_compute; reflexivity).
  assert (Hnan : nan_free (flat (tsub (VectorQuantizer.quantized Sample.losses s x) x)))
    by (rewrite Hd; repeat constructor).
  assert (Hcount : posfin (rofZ (Z.of_nat
     (length (flat (tsub (VectorQuantizer.quantized Sample.losses s x) x))))) = true)
    by (rewrite Hd; vm_compute; reflexivity).
  assert (Hcc : posfin (rofQ VectorQuantizer.commitment_cost : F32.t) = true)
    by (vm_compute; reflexivity).
  split; [reflexivity|]. split; [exact Hnan|]. split; [exact Hcount|].
  split; [exact Hcc|].
  exact (quantizer_losses_nonneg Sample.losses s x eq_refl Hnan Hcount Hcc).
Defined.

(** C6 as stated fails: for a feature that is NaN, and for an empty
    grid, whose mean is 0 / 0, both losses are NaN, and NaN is not
    greater than or equal to zero. *)
Lemma quantizer_losses_nan :
  let s := Sample.vq true Sample.ramp_codebook in
  let x := Sample.pixel (rnan : F32.t) in
  let empty : tensor F32.t := Tensor [0] 1 [] in
  VectorQuantizer.train s = true /\
  snd (VectorQuantizer.call Sample.losses s x) !! "e_latent_loss"
    = Some (VScalar (R:=F32.t) S754_nan) /\
  snd (VectorQuantizer.call Sample.losses s x) !! "q_latent_loss"
    = Some (VScalar (R:=F32.t) S754_nan) /\
  snd (VectorQuantizer.call Sample.losses s empty) !! "e_latent_loss"
    = Some (VScalar (R:=F32.t) S754_nan) /\
  snd (VectorQuantizer.call Sample.losses s empty) !! "q_latent_loss"
    = Some (VScalar (R:=F32.t) S754_nan) /\
  ~ nonneg (S754_nan : F32.t).
Proof.
  intros s x empty.
  destruct (call_losses Sample.losses s x eq_refl) as (_ & He & Hq & _).
  destruct (call_losses Sample.losses s empty eq_refl) as (_ & He0 & Hq0 & _).
  split; [reflexivity|].
  split; [rewrite He; do 2 f_equal; vm_compute; reflexivity|].
  split; [rewrite Hq; do 2 f_equal; vm_compute; reflexivity|].
  split; [rewrite He0; do 2 f_equal; vm_compute; reflexivity|].
  split; [rewrite Hq0; do 2 f_equal; vm_compute; reflexivity|].
  unfold nonneg. by vm_compute.
Qed.

(** ** The residual block *)

(** C4: with [b] the transformed branch, that is the input after
    normalisation, activation and the first 3x3 convolution and again
    normalisation, activation and the second 3x3 convolution: when
    input_dim equals filters the block returns [b] plus the unchanged
    input; otherwise the shortcut is a convolution, 3x3 if
    use_conv_shortcut is set and 1x1 if not, applied to [b], not to the
    input, and the block returns [b] plus that projection. *)
Theorem resblock_shortcut {T : Type} (nn : layers_module T)
    (s : ResBlock.self T) (sc : scope) (x : T) :
  let input_dim := List.last (shape nn x) 0 in
  let conv3 (i : nat) (y : T) :=
    ResBlock.conv_fn s (sc ++ [i]) (ResBlock.filters s) (3, 3) (1, 1) false y in
  let stage (i : nat) (y : T) :=
    conv3 i (ResBlock.activation_fn s (ResBlock.norm_fn s (sc ++ [i]) y)) in
  let b := stage 1 (stage 0 x) in
  (input_dim = ResBlock.filters s ->
   ResBlock.call nn s sc x = add nn b x) /\
  (input_dim <> ResBlock.filters s ->
   ResBlock.call nn s sc x
   = add nn b
       (ResBlock.conv_fn s (sc ++ [2]) (ResBlock.filters s)
          (if ResBlock.use_conv_shortcut s then (3, 3) else (1, 1))
          (1, 1) false b)).
Proof.
  intros input_dim conv3 stage b.
  unfold ResBlock.call, ResBlock.branch. fold input_dim.
  change (ResBlock.conv_fn s (sc ++ [1]) (ResBlock.filters s) (3, 3) (1, 1) false
            (ResBlock.activation_fn s
               (ResBlock.norm_fn s (sc ++ [1])
                  (ResBlock.conv_fn s (sc ++ [0]) (ResBlock.filters s) (3, 3) (1, 1) false
                     (ResBlock.activation_fn s (ResBlock.norm_fn s (sc ++ [0]) x))))))
    with b.
  split; intros Hdim.
  - apply Nat.eqb_eq in Hdim. by rewrite Hdim.
  - apply Nat.eqb_neq in Hdim. rewrite Hdim. cbn [negb].
    by destruct (ResBlock.use_conv_shortcut s).
Qed.

Lemma resblock_shortcut_witness :
  let nn := Sample.layers in
  let s := Sample.block in
  let x2 := Tensor [1; 1; 1] 2 [[Sample.half; Sample.third]] in
  let x1 := Sample.pixel (ropp Sample.half) in
  let stage (i : nat) (y : tensor F32.t) :=
    ResBlock.conv_fn s ([] ++ [i]) (ResBlock.filters s) (3, 3) (1, 1) false
      (ResBlock.activation_fn s (ResBlock.norm_fn s ([] ++ [i]) y)) in
  (List.last (shape nn x2) 0 = ResBlock.filters s /\
   ResBlock.call nn s [] x2 = add nn (stage 1 (stage 0 x2)) x2) /\
  (List.last (shape nn x1) 0 <> ResBlock.filters s /\
   ResBlock.call nn s [] x1
   = add nn (stage 1 (stage 0 x1))
       (ResBlock.conv_fn s ([] ++ [2]) (ResBlock.filters s)
          (if ResBlock.use_conv_shortcut s then (3, 3) else (1, 1))
          (1, 1) false (stage 1 (stage 0 x1)))).
Proof.
  intros nn s x2 x1 stage. split.
  - split; [reflexivity|].
    exact (proj1 (resblock_shortcut nn s [] x2) eq_refl).
  - assert (Hne : List.last (shape nn x1) 0 <> ResBlock.filters s)
      by (vm_compute; lia).
    split; [exact Hne|].
    exact (proj2 (resblock_shortcut nn s [] x1) Hne).
Defined.

(** The projection is of the branch, not of the input: on the one-channel
    input -1/2 the sample block, whose activation is relu, returns zero in
    both channels; the branch plus a projection of the input itself has
    -1/2 in the first. *)
Example resblock_projects_branch :
  let nn := Sample.layers in
  let s := Sample.block in
  let x := Sample.pixel (ropp Sample.half) in
  rows (ResBlock.call nn s [] x) = [[r0; r0]] /\
  rows (add nn (ResBlock.branch s [] x)
          (ResBlock.conv_fn s [2] (ResBlock.filters s) (1, 1) (1, 1) false x))
  = [[ropp Sample.half; r0]].
Proof. intros nn s x. split; vm_compute; reflexivity. Qed.

(** ** Shapes through the encoder and the decoder *)

Section ShapeFacts.
Context {T : Type}.
Variable nn : layers_module T.
Hypothesis HS : shape_laws nn.

Lemma branch_shape tr ty f sc x b h w c :
  shape nn x = [b; h; w; c] ->
  shape nn (ResBlock.branch (nn_block nn tr ty f) sc x) = [b; h; w; f].
Proof.
  intros Hx. unfold ResBlock.branch. cbn [nn_block ResBlock.norm_fn ResBlock.conv_fn
    ResBlock.activation_fn ResBlock.filters].
  eapply (shape_conv nn HS). rewrite (shape_swish nn HS), (shape_norm nn HS).
  eapply (shape_conv nn HS). by rewrite (shape_swish nn HS), (shape_norm nn HS).
Qed.

Lemma resblock_shape tr ty f sc x b h w c :
  shape nn x = [b; h; w; c] ->
  shape nn (ResBlock.call nn (nn_block nn tr ty f) sc x) = [b; h; w; f].
Proof.
  intros Hx. pose proof (branch_shape tr ty f sc x b h w c Hx) as Hb.
  unfold ResBlock.call. rewrite Hx. cbn [List.last nn_block ResBlock.filters
    ResBlock.use_conv_shortcut ResBlock.conv_fn].
  destruct (Nat.eqb_spec c f) as [->|Hne]; cbn [negb].
  - rewrite (shape_add nn HS); [done|]. by rewrite Hb, Hx.
  - rewrite (shape_add nn HS); [done|].
    rewrite Hb. symmetry. by eapply (shape_conv nn HS).
Qed.

Lemma res_blocks_shape tr ty f sc first x b h w c :
  shape nn x = [b; h; w; c] ->
  shape nn (res_blocks nn (nn_block nn tr ty f) sc 2 first x) = [b; h; w; f].
Proof.
  intros Hx. cbn [res_blocks].
  eapply resblock_shape. by eapply resblock_shape.
Qed.

Lemma encoder_stage_down s sc st i b h w c :
  i < 4 ->
  shape nn (cur st) = [b; 2 * h; 2 * w; c] ->
  shape nn (cur (Encoder.stage nn s sc 5 st i))
  = [b; h; w; Encoder.filters * nth i Encoder.channel_multipliers 0] /\
  cur_filters (Encoder.stage nn s sc 5 st i)
  = Encoder.filters * nth i Encoder.channel_multipliers 0.
Proof.
  intros Hi Hx. unfold Encoder.stage.
  replace (i <? 5 - 1) with true by (symmetry; apply Nat.ltb_lt; lia).
  change Encoder.conv_downsample with false. cbn [cur cur_filters].
  split; [|done].
  apply (shape_dsample nn HS).
  by eapply (res_blocks_shape (Encoder.train s) Encoder.norm_type).
Qed.

Lemma encoder_stage_last s sc st b h w c :
  shape nn (cur st) = [b; h; w; c] ->
  shape nn (cur (Encoder.stage nn s sc 5 st 4))
  = [b; h; w; Encoder.filters * nth 4 Encoder.channel_multipliers 0] /\
  cur_filters (Encoder.stage nn s sc 5 st 4)
  = Encoder.filters * nth 4 Encoder.channel_multipliers 0.
Proof.
  intros Hx. unfold Encoder.stage. cbn [Nat.ltb Nat.leb Nat.sub cur cur_filters].
  split; [|done].
  by eapply (res_blocks_shape (Encoder.train s) Encoder.norm_type).
Qed.

(** Four halvings: the feature grid is at 1/16 of the input resolution. *)
Lemma encoder_shape s sc x b h w c :
  shape nn x = [b; 16 * h; 16 * w; c] ->
  shape nn (Encoder.call nn s sc x) = [b; h; w; Encoder.embedding_dim].
Proof.
  intros Hx. unfold Encoder.call.
  change (length Encoder.channel_multipliers) with 5.
  cbn [seq fold_left].
  set (x0 := conv nn (sc ++ [0]) Encoder.filters (3, 3) (1, 1) false x).
  assert (H0 : shape nn x0 = [b; 2 * (8 * h); 2 * (8 * w); Encoder.filters]).
  { subst x0. replace (2 * (8 * h)) with (16 * h) by lia.
    replace (2 * (8 * w)) with (16 * w) by lia. by eapply (shape_conv nn HS). }
  set (st0 := LoopState x0 0 0 1).
  destruct (encoder_stage_down s sc st0 0 b (8 * h) (8 * w) _ ltac:(lia) H0) as [H1 _].
  set (st1 := Encoder.stage nn s sc 5 st0 0) in *.
  replace (8 * h) with (2 * (4 * h)) in H1 by lia.
  replace (8 * w) with (2 * (4 * w)) in H1 by lia.
  destruct (encoder_stage_down s sc st1 1 b _ _ _ ltac:(lia) H1) as [H2 _].
  set (st2 := Encoder.stage nn s sc 5 st1 1) in *.
  replace (4 * h) with (2 * (2 * h)) in H2 by lia.
  replace (4 * w) with (2 * (2 * w)) in H2 by lia.
  destruct (encoder_stage_down s sc st2 2 b _ _ _ ltac:(lia) H2) as [H3 _].
  set (st3 := Encoder.stage nn s sc 5 st2 2) in *.
  destruct (encoder_stage_down s sc st3 3 b _ _ _ ltac:(lia) H3) as [H4 _].
  set (st4 := Encoder.stage nn s sc 5 st3 3) in *.
  destruct (encoder_stage_last s sc st4 b _ _ _ H4) as [H5 H5f].
  set (st5 := Encoder.stage nn s sc 5 st4 4) in *.
  eapply (shape_conv nn HS).
  rewrite (shape_swish nn HS), (shape_norm nn HS).
  by eapply (res_blocks_shape (Encoder.train s) Encoder.norm_type).
Qed.

Lemma decoder_stage_up s sc st i b h w c :
  0 < i ->
  shape nn (cur st) = [b; h; w; c] ->
  shape nn (cur (Decoder.stage nn s sc st i))
  = [b; 2 * h; 2 * w; Decoder.filters * nth i Decoder.channel_multipliers 0].
Proof.
  intros Hi Hx. unfold Decoder.stage.
  replace (0 <? i) with true by (symmetry; apply Nat.ltb_lt; lia).
  cbn [cur]. eapply (shape_conv nn HS). apply (shape_upsample nn HS).
  by eapply (res_blocks_shape (Decoder.train s) Decoder.norm_type).
Qed.

Lemma decoder_stage_last s sc st b h w c :
  shape nn (cur st) = [b; h; w; c] ->
  shape nn (cur (Decoder.stage nn s sc st 0))
  = [b; h; w; Decoder.filters * nth 0 Decoder.channel_multipliers 0].
Proof.
  intros Hx. unfold Decoder.stage. cbn [Nat.ltb Nat.leb cur].
  by eapply (res_blocks_shape (Decoder.train s) Decoder.norm_type).
Qed.

(** Four doublings, and [output_dim] channels. *)
Lemma decoder_shape s sc x b h w c :
  shape nn x = [b; h; w; c] ->
  shape nn (Decoder.call nn s sc x) = [b; 16 * h; 16 * w; Decoder.output_dim s].
Proof.
  intros Hx. unfold Decoder.call.
  change (length Decoder.channel_multipliers) with 5.
  cbn [seq rev app fold_left].
  set (f := Decoder.filters * List.last Decoder.channel_multipliers 0).
  set (x0 := res_blocks nn _ sc Decoder.num_res_blocks 0 _).
  assert (H0 : shape nn x0 = [b; h; w; f]).
  { subst x0. eapply (res_blocks_shape (Decoder.train s) Decoder.norm_type).
    by eapply (shape_conv nn HS). }
  set (st0 := LoopState x0 f Decoder.num_res_blocks 1).
  pose proof (decoder_stage_up s sc st0 4 b _ _ _ ltac:(lia) H0) as H1.
  set (st1 := Decoder.stage nn s sc st0 4) in *.
  pose proof (decoder_stage_up s sc st1 3 b _ _ _ ltac:(lia) H1) as H2.
  set (st2 := Decoder.stage nn s sc st1 3) in *.
  pose proof (decoder_stage_up s sc st2 2 b _ _ _ ltac:(lia) H2) as H3.
  set (st3 := Decoder.stage nn s sc st2 2) in *.
  pose proof (decoder_stage_up s sc st3 1 b _ _ _ ltac:(lia) H3) as H4.
  set (st4 := Decoder.stage nn s sc st3 1) in *.
  pose proof (decoder_stage_last s sc st4 b _ _ _ H4) as H5.
  set (st5 := Decoder.stage nn s sc st4 0) in *.
  rewrite (shape_sigmoid nn HS).
  replace (16 * h) with (2 * (2 * (2 * (2 * h)))) by lia.
  replace (16 * w) with (2 * (2 * (2 * (2 * w)))) by lia.
  eapply (shape_conv nn HS).
  by rewrite (shape_swish nn HS), (shape_norm nn HS).
Qed.
End ShapeFacts.

Lemma sample_layers_shape_laws : shape_laws Sample.layers.
Proof.
  split; try done.
  - intros sc features k use_bias x b h w c Hx.
    unfold shape_of in Hx. cbn [shape Sample.layers] in Hx.
    change [b; h; w; c] with ([b; h; w] ++ [c]) in Hx.
    apply app_inj_tail in Hx as [Hl Hc].
    cbn [shape conv Sample.layers]. unfold shape_of. cbn [lead chan fst snd].
    rewrite Hl. unfold Sample.ceil_div.
    by rewrite !Nat.add_sub, !Nat.div_1_r.
  - intros x b h w c Hx.
    unfold shape_of in Hx. cbn [shape Sample.layers] in Hx.
    change [b; 2 * h; 2 * w; c] with ([b; 2 * h; 2 * w] ++ [c]) in Hx.
    apply app_inj_tail in Hx as [Hl Hc].
    cbn [shape dsample Sample.layers]. rewrite Hl. unfold shape_of. cbn [lead chan].
    by rewrite !Nat.div2_double, Hc.
  - intros x f b h w c Hx.
    unfold shape_of in Hx. cbn [shape Sample.layers] in Hx.
    change [b; h; w; c] with ([b; h; w] ++ [c]) in Hx.
    apply app_inj_tail in Hx as [Hl Hc].
    cbn [shape upsample Sample.layers]. rewrite Hl. unfold shape_of. cbn [lead chan].
    by rewrite Hc.
Qed.

(** The quantized output has the shape of the raw features. *)
Lemma vq_call_shape {R : Type} `{Scalar R} `{!Reduction R}
    (L : losses_module R) (s : VectorQuantizer.self R) (x : tensor R) :
  chan x = width (VectorQuantizer.codebook s) ->
  shape_of (fst (VectorQuantizer.call L s x)) = shape_of x.
Proof.
  intros Hc. unfold VectorQuantizer.call. cbn [fst].
  destruct (VectorQuantizer.train s); [done|].
  unfold shape_of. by rewrite Hc.
Qed.

(** C9: for an image of shape (B, H, W, 3) with H and W multiples of 16,
    the encoder, with its four downsampling stages, yields a feature grid
    of shape (B, H/16, W/16, embedding_dim), and the round trip through
    encoder, quantizer and decoder returns an image of shape (B, H, W, 3).
    The layers have the shapes of [shape_laws]; the quantizer keeps the
    shape of the feature grid. *)
Theorem autoencoder_shapes {R : Type} (nn : layers_module (tensor R))
    (q : quantizer_module R) (vae : VQVAE.self) (image : tensor R)
    (b h w : nat) :
  shape_laws nn ->
  (forall x b' h' w',
     shape nn x = [b'; h'; w'; Encoder.embedding_dim] ->
     shape nn (fst (q_call q x)) = [b'; h'; w'; Encoder.embedding_dim]) ->
  shape nn image = [b; 16 * h; 16 * w; 3] ->
  shape nn (VQVAE.encoder nn vae image) = [b; h; w; Encoder.embedding_dim] /\
  shape nn (fst (VQVAE.encode nn q vae image)) = [b; h; w; Encoder.embedding_dim] /\
  shape nn (VQVAE.call nn q vae image) = [b; 16 * h; 16 * w; 3].
Proof.
  intros HS Hq Himg.
  assert (He : shape nn (VQVAE.encoder nn vae image) = [b; h; w; Encoder.embedding_dim]).
  { unfold VQVAE.encoder. by eapply encoder_shape. }
  assert (Hz : shape nn (fst (VQVAE.encode nn q vae image))
               = [b; h; w; Encoder.embedding_dim]).
  { unfold VQVAE.encode. by apply Hq. }
  split; [done|]. split; [done|].
  unfold VQVAE.call, VQVAE.decoder.
  by rewrite (decoder_shape nn HS _ _ _ b h w _ Hz).
Qed.

Lemma autoencoder_shapes_witness :
  let q := vector_quantizer Sample.losses (Sample.vq false Sample.wide_codebook) in
  let vae := {| VQVAE.train := false |} in
  shape_laws Sample.layers /\
  (forall x b' h' w',
     shape Sample.layers x = [b'; h'; w'; Encoder.embedding_dim] ->
     shape Sample.layers (fst (q_call q x)) = [b'; h'; w'; Encoder.embedding_dim]) /\
  shape Sample.layers Sample.image = [1; 16 * 1; 16 * 1; 3] /\
  shape Sample.layers (VQVAE.encoder Sample.layers vae Sample.image)
    = [1; 1; 1; Encoder.embedding_dim] /\
  shape Sample.layers (fst (VQVAE.encode Sample.layers q vae Sample.image))
    = [1; 1; 1; Encoder.embedding_dim] /\
  shape Sample.layers (VQVAE.call Sample.layers q vae Sample.image)
    = [1; 16 * 1; 16 * 1; 3].
Proof.
  intros q vae.
  assert (Hq : forall x b' h' w',
     shape Sample.layers x = [b'; h'; w'; Encoder.embedding_dim] ->
     shape Sample.layers (fst (q_call q x)) = [b'; h'; w'; Encoder.embedding_dim]).
  { intros x b' h' w' Hx. rewrite <- Hx.
    cbn [shape Sample.layers q q_call vector_quantizer] in *.
    apply vq_call_shape.
    change [b'; h'; w'; Encoder.embedding_dim]
      with ([b'; h'; w'] ++ [Encoder.embedding_dim]) in Hx.
    unfold shape_of in Hx. apply app_inj_tail in Hx as [_ ->]. reflexivity. }
  split; [apply sample_layers_shape_laws|].
  split; [exact Hq|].
  split; [reflexivity|].
  exact (autoencoder_shapes Sample.layers q vae Sample.image 1 1 1
           sample_layers_shape_laws Hq eq_refl).
Defined.

(** ** Exact arithmetic *)

Module ExactArith.
Import ExactLaws.

#[global] Instance qc_unit_laws : UnitLaws Qc.
Proof. split; cbn; ring. Qed.

Lemma qc_gather_skip (c : Qc) : true = true -> radd r0 (rmul r0 c) = r0.
Proof. intros _. cbn. ring. Qed.

Lemma qc_gather_pick (c : Qc) : true = true -> radd r0 (rmul r1 c) = c.
Proof. intros _. cbn. ring. Qed.

Lemma qc_gather_keep (c c' : Qc) :
  true = true -> true = true -> radd c (rmul r0 c') = c.
Proof. intros _ _. cbn. ring. Qed.

#[global] Instance qc_gather_laws : GatherLaws Qc := {|
  regular := fun _ => true;
  gather_skip := qc_gather_skip;
  gather_pick := qc_gather_pick;
  gather_keep := qc_gather_keep
|}.

Lemma nonneg_le (a : Qc) : nonneg a <-> (0 <= a)%Qc.
Proof. unfold nonneg. cbn. apply leb_le. Qed.

Lemma posfin_lt (b : Qc) : posfin b = true <-> (0 < b)%Qc.
Proof. unfold posfin. cbn. apply ltb_lt. Qed.

Lemma Qc_square_nonneg (a : Qc) : (0 <= a * a)%Qc.
Proof.
  destruct (Qclt_le_dec a 0) as [Hneg|Hpos].
  - replace (a * a)%Qc with ((- a) * (- a))%Qc by ring.
    assert (0 <= - a)%Qc as Hna.
    { apply Qclt_le_weak in Hneg. apply Qcopp_le_compat in Hneg.
      by replace (- 0)%Qc with 0%Qc in Hneg by ring. }
    replace 0%Qc with (0 * - a)%Qc by ring.
    by apply Qcmult_le_compat_r.
  - replace 0%Qc with (0 * a)%Qc by ring.
    by apply Qcmult_le_compat_r.
Qed.

Lemma Qc_inv_pos (b : Qc) : (0 < b)%Qc -> (0 < / b)%Qc.
Proof.
  intros Hb. destruct (Qclt_le_dec 0 (/ b)) as [|Hle]; [done|exfalso].
  assert (b * / b <= 0 * b)%Qc as H1.
  { rewrite Qcmult_comm. apply Qcmult_le_compat_r; [done|by apply Qclt_le_weak]. }
  rewrite Qcmult_inv_r in H1 by (intros ->; by apply (Qclt_irrefl 0)).
  replace (0 * b)%Qc with 0%Qc in H1 by ring.
  by apply (Qcle_not_lt _ _ H1).
Qed.

#[global] Instance qc_sign_laws : SignLaws Qc.
Proof.
  split.
  - apply nonneg_le, Qcle_refl.
  - intros a _. apply nonneg_le. cbn. apply Qc_square_nonneg.
  - intros a b Ha Hb. apply nonneg_le in Ha, Hb. apply nonneg_le. cbn.
    replace 0%Qc with (0 + 0)%Qc by ring. by apply Qcplus_le_compat.
  - intros a b Ha Hb. apply nonneg_le in Ha. apply posfin_lt in Hb.
    apply nonneg_le. cbn. replace 0%Qc with (0 * b)%Qc by ring.
    apply Qcmult_le_compat_r; [done|by apply Qclt_le_weak].
  - intros a b Ha Hb. apply nonneg_le in Ha. apply posfin_lt in Hb.
    apply nonneg_le. cbn. unfold Qcdiv.
    replace 0%Qc with (0 * / b)%Qc by ring.
    apply Qcmult_le_compat_r; [done|]. by apply Qclt_le_weak, Qc_inv_pos.
Qed.

(** In exact arithmetic the straight-through rewrite changes nothing. *)
Lemma passthrough_exact_Qc (x q : tensor Qc) :
  length (rows x) = length (rows q) ->
  (forall i a b, rows x !! i = Some a -> rows q !! i = Some b ->
                 length a = length b) ->
  passthrough_exact x q.
Proof.
  intros Hlen Hrows. unfold passthrough_exact.
  apply Forall2_same_length_lookup_2; [done|].
  intros i a b Ha Hb. apply Forall2_true; [|by eapply Hrows].
  intros u v. cbn. ring.
Qed.

Lemma quantized_row_length (L : losses_module Qc) (s : VectorQuantizer.self Qc)
    (x : tensor Qc) (i : nat) (b : list Qc) :
  rows (VectorQuantizer.quantized L s x) !! i = Some b ->
  length b = width (VectorQuantizer.codebook s).
Proof.
  unfold VectorQuantizer.quantized, VectorQuantizer.quantize, jnp_dot. cbn [rows].
  rewrite list_lookup_fmap. destruct (_ !! i) as [z|]; [|done].
  intros [= <-]. unfold dot_row. by rewrite length_map, length_seq.
Qed.

Lemma straight_through_exact_arithmetic (L : losses_module Qc)
    (s : VectorQuantizer.self Qc) (x : tensor Qc) :
  VectorQuantizer.train s = true ->
  sed_shape L ->
  length (VectorQuantizer.codebook s) = VectorQuantizer.codebook_size ->
  wf_tensor x ->
  chan x = width (VectorQuantizer.codebook s) ->
  fst (VectorQuantizer.call L s x) = VectorQuantizer.quantized L s x.
Proof.
  intros Htrain HL HK [_ Hrows] Hchan.
  unfold VectorQuantizer.call. rewrite Htrain. cbn [fst].
  unfold VectorQuantizer.straight_through.
  rewrite tadd_tsub_passthrough.
  - rewrite Hchan. set (q := VectorQuantizer.quantized L s x).
    change (lead x) with (lead q).
    change (width (VectorQuantizer.codebook s)) with (chan q).
    by destruct q.
  - apply passthrough_exact_Qc.
    + unfold VectorQuantizer.quantized, VectorQuantizer.quantize, jnp_dot,
        VectorQuantizer.encodings, one_hot, VectorQuantizer.encoding_indices,
        jnp_argmin. cbn [rows ivals]. rewrite !length_map.
      by destruct (distances_rows L HL s HK x).
    + intros i a b Ha Hb. rewrite (quantized_row_length L s x i b Hb).
      rewrite Forall_lookup in Hrows. rewrite <- Hchan. by apply (Hrows i).
Qed.
End ExactArith.

(** * Further properties of the code *)

(** ** Shapes of what the forward pass returns *)

Lemma zip_rows_length {R : Type} (f : R -> R -> R) (a b : list (list R)) (n : nat) :
  Forall (fun r => length r = n) a ->
  Forall (fun r => length r = n) b ->
  Forall (fun r => length r = n) (zip_with (zip_with f) a b).
Proof.
  intros Ha. revert b. induction Ha as [|u a Hu _ IH]; intros b Hb; simpl; [done|].
  destruct Hb as [|v b Hv Hb]; [done|]. constructor; [|by apply IH].
  rewrite length_zip_with. lia.
Qed.
Section OutputShapes.
Context {R : Type} `{Scalar R}.
Variable L : losses_module R.
Hypothesis HL : sed_shape L.
Variable s : VectorQuantizer.self R.
Hypothesis HK : length (VectorQuantizer.codebook s) = VectorQuantizer.codebook_size.

Lemma encoding_indices_length (x : tensor R) :
  length (ivals (VectorQuantizer.encoding_indices L s x)) = length (rows x).
Proof.
  unfold VectorQuantizer.encoding_indices, jnp_argmin. cbn [ivals].
  rewrite length_map. by destruct (distances_rows L HL s HK x).
Qed.

Lemma quantized_rows_length (x : tensor R) :
  length (rows (VectorQuantizer.quantized L s x)) = length (rows x).
Proof.
  unfold VectorQuantizer.quantized, VectorQuantizer.quantize, jnp_dot,
    VectorQuantizer.encodings, one_hot. cbn [rows].
  rewrite !length_map. apply encoding_indices_length.
Qed.

Lemma quantized_rows_width (x : tensor R) :
  Forall (fun r => length r = width (VectorQuantizer.codebook s))
    (rows (VectorQuantizer.quantized L s x)).
Proof.
  unfold VectorQuantizer.quantized, VectorQuantizer.quantize, jnp_dot. cbn [rows].
  rewrite Forall_fmap. apply Forall_forall. intros z _. simpl.
  unfold dot_row. by rewrite length_map, length_seq.
Qed.

End OutputShapes.

(** X1: for a well-formed feature grid whose channel count is the width of
    the codebook, whatever the mode, the returned tensor is well-formed
    and has the shape of the input; the one-hot encodings are well-formed
    of shape x.shape[:-1] + (codebook_size,), and the index array has shape
    x.shape[:-1] with one entry per position. *)
Theorem quantizer_outputs_wellformed {R : Type} `{Scalar R} `{!Reduction R}
    (L : losses_module R) (s : VectorQuantizer.self R) (x : tensor R) :
  sed_shape L ->
  length (VectorQuantizer.codebook s) = VectorQuantizer.codebook_size ->
  wf_tensor x ->
  chan x = width (VectorQuantizer.codebook s) ->
  shape_of (fst (VectorQuantizer.call L s x)) = shape_of x /\
  wf_tensor (fst (VectorQuantizer.call L s x)) /\
  shape_of (VectorQuantizer.encodings L s x)
    = lead x ++ [VectorQuantizer.codebook_size] /\
  wf_tensor (VectorQuantizer.encodings L s x) /\
  ishape (VectorQuantizer.encoding_indices L s x) = lead x /\
  length (ivals (VectorQuantizer.encoding_indices L s x)) = numel (lead x).
Proof.
  intros HL HK [Hn Hrows] Hc.
  pose proof (quantized_rows_length L HL s HK x) as Hql.
  pose proof (quantized_rows_width L s x) as Hqw.
  split; [exact (vq_call_shape L s x Hc)|].
  split.
  { unfold VectorQuantizer.call. cbn [fst].
    destruct (VectorQuantizer.train s).
    - unfold VectorQuantizer.straight_through, stop_gradient, tadd, tsub, tzip, wf_tensor.
      cbn [lead chan rows]. split.
      + rewrite !length_zip_with, Hql. lia.
      + apply zip_rows_length; [done|].
        apply zip_rows_length; [by rewrite Hc|done].
    - split; [by rewrite Hql|]. done. }
  split; [done|].
  split.
  { unfold wf_tensor, VectorQuantizer.encodings, one_hot. cbn [lead chan rows].
    split.
    - rewrite length_map, (encoding_indices_length L HL s HK). exact Hn.
    - rewrite Forall_fmap. apply Forall_forall. intros i _. cbv beta.
      apply one_hot_row_length. }
  split; [done|].
  by rewrite (encoding_indices_length L HL s HK).
Qed.

Lemma quantizer_outputs_wellformed_witness :
  let s := Sample.vq true Sample.ramp_codebook in
  let x := Sample.two_pixels r1 Sample.third in
  sed_shape Sample.losses /\
  length (VectorQuantizer.codebook s) = VectorQuantizer.codebook_size /\
  wf_tensor x /\
  chan x = width (VectorQuantizer.codebook s) /\
  shape_of (fst (VectorQuantizer.call Sample.losses s x)) = shape_of x /\
  wf_tensor (fst (VectorQuantizer.call Sample.losses s x)) /\
  shape_of (VectorQuantizer.encodings Sample.losses s x)
    = lead x ++ [VectorQuantizer.codebook_size] /\
  wf_tensor (VectorQuantizer.encodings Sample.losses s x) /\
  ishape (VectorQuantizer.encoding_indices Sample.losses s x) = lead x /\
  length (ivals (VectorQuantizer.encoding_indices Sample.losses s x)) = numel (lead x).
Proof.
  intros s x.
  assert (Hwf : wf_tensor x) by (split; [reflexivity|by repeat constructor]).
  split; [apply sample_losses_shape|].
  split; [vm_compute; reflexivity|].
  split; [exact Hwf|].
  split; [reflexivity|].
  exact (quantizer_outputs_wellformed Sample.losses s x
           sample_losses_shape eq_refl Hwf eq_refl).
Defined.

(** ** The quantized grid in inference mode *)

Section InferenceFacts.
Context {R : Type} `{Scalar R} `{Inexact R} `{!GatherLaws R}.
Variable L : losses_module R.
Hypothesis HL : sed_shape L.
Variable s : VectorQuantizer.self R.
Hypothesis HK : length (VectorQuantizer.codebook s) = VectorQuantizer.codebook_size.
Hypothesis Hrect :
  Forall (fun r => length r = width (VectorQuantizer.codebook s))
    (VectorQuantizer.codebook s).
Hypothesis Hreg : regular_matrix (VectorQuantizer.codebook s).

(** Gathering by the indices of a forward pass gives its quantized grid. *)
Lemma decode_ids_of_encoding_indices (x : tensor R) :
  VectorQuantizer.decode_ids s (VectorQuantizer.encoding_indices L s x)
  = VectorQuantizer.quantized L s x.
Proof.
  unfold VectorQuantizer.decode_ids, VectorQuantizer.quantized,
    VectorQuantizer.quantize, VectorQuantizer.encodings.
  rewrite <- HK. apply take_is_dot; [done|done|].
  rewrite HK. by apply encoding_indices_range.
Qed.
End InferenceFacts.

(** X2: in inference mode, for a rectangular codebook whose entries are
    regular (in binary32: finite and not the negative zero), the vector
    returned at a position is a row of the codebook, the row at that
    position's encoding index: the quantized grid holds codebook vectors,
    bit for bit. *)
Theorem inference_rows_are_codes {R : Type}
    `{Scalar R} `{!GatherLaws R} `{!Reduction R}
    (L : losses_module R) (s : VectorQuantizer.self R) (x : tensor R)
    (p : nat) (v : list R) :
  VectorQuantizer.train s = false ->
  sed_shape L ->
  length (VectorQuantizer.codebook s) = VectorQuantizer.codebook_size ->
  Forall (fun r => length r = width (VectorQuantizer.codebook s))
    (VectorQuantizer.codebook s) ->
  regular_matrix (VectorQuantizer.codebook s) ->
  rows x !! p = Some v ->
  exists (idx : nat) (code : list R),
    ivals (VectorQuantizer.encoding_indices L s x) !! p = Some (Z.of_nat idx) /\
    VectorQuantizer.codebook s !! idx = Some code /\
    rows (fst (VectorQuantizer.call L s x)) !! p = Some code.
Proof.
  intros Htrain HL HK Hrect Hreg Hp.
  destruct (distances_lookup L HL s HK x p v Hp) as (drow & Hd & Hlen).
  assert (Hidx : argmin drow < length (VectorQuantizer.codebook s)).
  { rewrite HK. apply (argmin_row_bound L HL s HK x).
    by apply list_elem_of_lookup_2 with p. }
  destruct (lookup_lt_is_Some_2 _ _ Hidx) as [code Hcode].
  exists (argmin drow), code.
  split; [by apply encoding_indices_lookup|]. split; [done|].
  unfold VectorQuantizer.call. rewrite Htrain. cbn [fst].
  rewrite (quantized_lookup L s x p drow Hd). f_equal.
  rewrite <- HK. by apply dot_row_one_hot.
Qed.

Lemma inference_rows_are_codes_witness :
  let s := Sample.vq false Sample.ramp_codebook in
  let x := Sample.two_pixels r1 Sample.third in
  VectorQuantizer.train s = false /\
  sed_shape Sample.losses /\
  length (VectorQuantizer.codebook s) = VectorQuantizer.codebook_size /\
  Forall (fun r => length r = width (VectorQuantizer.codebook s))
    (VectorQuantizer.codebook s) /\
  regular_matrix (VectorQuantizer.codebook s) /\
  rows x !! 1 = Some [Sample.third] /\
  exists (idx : nat) (code : list F32.t),
    ivals (VectorQuantizer.encoding_indices Sample.losses s x) !! 1
      = Some (Z.of_nat idx) /\
    VectorQuantizer.codebook s !! idx = Some code /\
    rows (fst (VectorQuantizer.call Sample.losses s x)) !! 1 = Some code.
Proof.
  intros s x.
  split; [reflexivity|].
  split; [apply sample_losses_shape|].
  split; [vm_compute; reflexivity|].
  split; [apply ramp_codebook_rectangular|].
  split; [apply ramp_codebook_regular|].
  split; [reflexivity|].
  exact (inference_rows_are_codes Sample.losses s x 1 [Sample.third] eq_refl
           sample_losses_shape eq_refl ramp_codebook_rectangular
           ramp_codebook_regular eq_refl).
Defined.

(** X3: with the vector quantizer in inference mode and a rectangular
    codebook whose entries are regular (in binary32: finite and not the
    negative zero), reconstructing through the stored indices is the
    forward pass: encode_to_indices followed by decode_from_indices returns
    what __call__ returns, and so does decode_from_indices applied to the
    record that encode returns. *)
Theorem index_path_matches_forward {R : Type}
    `{Scalar R} `{Inexact R} `{!Reduction R}
    `{!GatherLaws R}
    (L : losses_module R) (s : VectorQuantizer.self R)
    (nn : layers_module (tensor R)) (vae : VQVAE.self) (image : tensor R) :
  VectorQuantizer.train s = false ->
  sed_shape L ->
  length (VectorQuantizer.codebook s) = VectorQuantizer.codebook_size ->
  Forall (fun r => length r = width (VectorQuantizer.codebook s))
    (VectorQuantizer.codebook s) ->
  regular_matrix (VectorQuantizer.codebook s) ->
  let q := vector_quantizer L s in
  exists ids : itensor,
    VQVAE.encode_to_indices nn q vae (Plain image) = Some ids /\
    VQVAE.decode_from_indices nn q vae (Plain ids)
      = Some (VQVAE.call nn q vae image) /\
    VQVAE.decode_from_indices nn q vae (Dict (snd (VQVAE.encode nn q vae image)))
      = Some (VQVAE.call nn q vae image).
Proof.
  intros Htrain HL HK Hrect Hreg q.
  set (z := VQVAE.encoder nn vae image).
  exists (VectorQuantizer.encoding_indices L s z).
  assert (Hcall : VQVAE.call nn q vae image
                  = VQVAE.decode nn vae (VectorQuantizer.quantized L s z)).
  { unfold VQVAE.call, VQVAE.encode, VQVAE.decode. fold z.
    cbn [q q_call vector_quantizer]. unfold VectorQuantizer.call.
    by rewrite Htrain. }
  assert (Hdec : VQVAE.decode_from_indices nn q vae
                   (Plain (VectorQuantizer.encoding_indices L s z))
                 = Some (VQVAE.call nn q vae image)).
  { unfold VQVAE.decode_from_indices.
    cbn [mbind option_bind q vector_quantizer q_decode_ids].
    by rewrite (decode_ids_of_encoding_indices L HL s HK Hrect Hreg), Hcall. }
  split; [|split; [exact Hdec|]].
  - unfold VQVAE.encode_to_indices. fold z.
    cbn [mbind option_bind q vector_quantizer q_call].
    by rewrite call_encoding_indices.
  - rewrite <- Hdec. unfold VQVAE.decode_from_indices, VQVAE.encode. fold z.
    cbn [q vector_quantizer q_call]. by rewrite call_encoding_indices.
Qed.

Lemma index_path_matches_forward_witness :
  let s := Sample.vq false Sample.wide_codebook in
  let vae := {| VQVAE.train := false |} in
  let q := vector_quantizer Sample.losses s in
  VectorQuantizer.train s = false /\
  sed_shape Sample.losses /\
  length (VectorQuantizer.codebook s) = VectorQuantizer.codebook_size /\
  Forall (fun r => length r = width (VectorQuantizer.codebook s))
    (VectorQuantizer.codebook s) /\
  regular_matrix (VectorQuantizer.codebook s) /\
  exists ids : itensor,
    VQVAE.encode_to_indices Sample.layers q vae (Plain Sample.image) = Some ids /\
    VQVAE.decode_from_indices Sample.layers q vae (Plain ids)
      = Some (VQVAE.call Sample.layers q vae Sample.image) /\
    VQVAE.decode_from_indices Sample.layers q vae
      (Dict (snd (VQVAE.encode Sample.layers q vae Sample.image)))
      = Some (VQVAE.call Sample.layers q vae Sample.image).
Proof.
  intros s vae q.
  assert (Hrect : Forall (fun r => length r = width (VectorQuantizer.codebook s))
                    (VectorQuantizer.codebook s)).
  { unfold s, Sample.vq, Sample.wide_codebook. cbn [VectorQuantizer.codebook].
    rewrite Forall_fmap. apply Forall_forall. intros k _. reflexivity. }
  assert (Hreg : regular_matrix (VectorQuantizer.codebook s)).
  { apply (forallb2_Forall F32.is_regular). vm_compute. reflexivity. }
  split; [reflexivity|].
  split; [apply sample_losses_shape|].
  split; [vm_compute; reflexivity|].
  split; [exact Hrect|].
  split; [exact Hreg|].
  exact (index_path_matches_forward Sample.losses s Sample.layers vae Sample.image
           eq_refl sample_losses_shape eq_refl Hrect Hreg).
Defined.

(** ** The one-hot product out of range *)

Section OutOfRange.
Context {R : Type} `{Scalar R} `{!GatherLaws R}.

Lemma one_hot_row_out_of_range (K : nat) (i : Z) :
  (i < 0 \/ Z.of_nat K <= i)%Z ->
  one_hot_row (R:=R) K i = repeat r0 K.
Proof.
  intros Hi. unfold one_hot_row. apply one_hot_off. intros k Hk. lia.
Qed.

Lemma dot_row_zeros (m : list (list R)) :
  Forall (fun r => length r = width m) m ->
  regular_matrix m ->
  dot_row (repeat r0 (length m)) m = repeat r0 (width m).
Proof.
  intros Hrect Hreg. unfold dot_row.
  transitivity (map (fun _ : nat => (r0 : R)) (seq 0 (width m))).
  - apply map_ext_in. intros j Hj. apply in_seq in Hj.
    rewrite zip_zeros by (unfold column; by rewrite length_map).
    apply sum_skipped. apply column_regular; [done|done|lia].
  - generalize (width m) at 1 2 as n. generalize 0 as a.
    intros a n. revert a. induction n as [|n IH]; intros a; simpl; [done|].
    by rewrite IH.
Qed.
End OutOfRange.

(** X4: for a rectangular codebook whose entries are regular (in
    binary32: finite and not the negative zero), the one-hot lookup
    quantize(one_hot(ids)) of an index outside [0, codebook_size) is the
    zero vector: one_hot gives the zero row, and its product with the
    codebook vanishes.  (decode_ids gives NaN, or for a negative index a
    wrapped row, there.) *)
Theorem one_hot_lookup_out_of_range {R : Type} `{Scalar R} `{!GatherLaws R}
    (s : VectorQuantizer.self R) (ids : itensor) (p : nat) (i : Z) :
  length (VectorQuantizer.codebook s) = VectorQuantizer.codebook_size ->
  Forall (fun r => length r = width (VectorQuantizer.codebook s))
    (VectorQuantizer.codebook s) ->
  regular_matrix (VectorQuantizer.codebook s) ->
  ivals ids !! p = Some i ->
  (i < 0 \/ Z.of_nat VectorQuantizer.codebook_size <= i)%Z ->
  rows (one_hot (R:=R) ids VectorQuantizer.codebook_size) !! p
    = Some (repeat r0 VectorQuantizer.codebook_size) /\
  rows (VectorQuantizer.quantize s (one_hot ids VectorQuantizer.codebook_size)) !! p
    = Some (repeat r0 (width (VectorQuantizer.codebook s))).
Proof.
  intros HK Hrect Hreg Hp Hi.
  assert (Hrow : rows (one_hot (R:=R) ids VectorQuantizer.codebook_size) !! p
                 = Some (repeat r0 VectorQuantizer.codebook_size)).
  { unfold one_hot. cbn [rows]. rewrite list_lookup_fmap, Hp.
    cbn [fmap option_fmap option_map].
    by rewrite one_hot_row_out_of_range. }
  split; [exact Hrow|].
  unfold VectorQuantizer.quantize, jnp_dot. cbn [rows].
  rewrite list_lookup_fmap, Hrow. cbn [fmap option_fmap option_map].
  f_equal. rewrite <- HK. by apply dot_row_zeros.
Qed.

Lemma one_hot_lookup_out_of_range_witness :
  let s := Sample.vq false Sample.ramp_codebook in
  let ids := ITensor [2] [1024%Z; (-1)%Z] in
  length (VectorQuantizer.codebook s) = VectorQuantizer.codebook_size /\
  Forall (fun r => length r = width (VectorQuantizer.codebook s))
    (VectorQuantizer.codebook s) /\
  regular_matrix (VectorQuantizer.codebook s) /\
  ivals ids !! 1 = Some (-1)%Z /\
  (-1 < 0 \/ Z.of_nat VectorQuantizer.codebook_size <= -1)%Z /\
  rows (one_hot (R:=F32.t) ids VectorQuantizer.codebook_size) !! 1
    = Some (repeat r0 VectorQuantizer.codebook_size) /\
  rows (VectorQuantizer.quantize s (one_hot ids VectorQuantizer.codebook_size)) !! 1
    = Some (repeat r0 (width (VectorQuantizer.codebook s))).
Proof.
  intros s ids.
  split; [vm_compute; reflexivity|].
  split; [apply ramp_codebook_rectangular|].
  split; [apply ramp_codebook_regular|].
  split; [reflexivity|].
  split; [left; reflexivity|].
  exact (one_hot_lookup_out_of_range s ids 1 (-1)%Z eq_refl
           ramp_codebook_rectangular ramp_codebook_regular eq_refl
           (or_introl eq_refl)).
Defined.

(** ** [decode_ids] keeps arrays well-formed *)

(** X5: for a well-formed index array and a rectangular codebook,
    decode_ids returns a well-formed array of shape ids.shape + (C,), C the
    width of the codebook, whatever the indices: the rows filled for
    indices out of bounds have the width of the codebook too. *)
Theorem decode_ids_wellformed {R : Type} `{Scalar R} `{Inexact R}
    (s : VectorQuantizer.self R) (ids : itensor) :
  Forall (fun r => length r = width (VectorQuantizer.codebook s))
    (VectorQuantizer.codebook s) ->
  length (ivals ids) = numel (ishape ids) ->
  shape_of (VectorQuantizer.decode_ids s ids)
    = ishape ids ++ [width (VectorQuantizer.codebook s)] /\
  wf_tensor (VectorQuantizer.decode_ids s ids).
Proof.
  intros Hrect Hn. split; [done|].
  unfold wf_tensor, VectorQuantizer.decode_ids, jnp_take. cbn [lead chan rows].
  split; [by rewrite length_map|].
  rewrite Forall_fmap. apply Forall_forall. intros i _. cbv beta.
  unfold compose, take_row. cbv beta zeta.
  set (n := Z.of_nat (length (VectorQuantizer.codebook s))).
  set (i' := if (i <? 0)%Z then (i + n)%Z else i).
  destruct ((0 <=? i')%Z && (i' <? n)%Z) eqn:Hin; [|by rewrite repeat_length].
  apply andb_true_iff in Hin as [Hlo Hhi].
  apply Z.leb_le in Hlo. apply Z.ltb_lt in Hhi.
  destruct (lookup_lt_is_Some_2 (VectorQuantizer.codebook s) (Z.to_nat i'))
    as [row Hrow]; [unfold n in Hhi; lia|].
  rewrite (nth_lookup_Some _ _ _ _ Hrow).
  rewrite Forall_lookup in Hrect. by apply (Hrect (Z.to_nat i')).
Qed.

Lemma decode_ids_wellformed_witness :
  let s := Sample.vq false Sample.ramp_codebook in
  let ids := ITensor [3] [0%Z; 1024%Z; (-1)%Z] in
  Forall (fun r => length r = width (VectorQuantizer.codebook s))
    (VectorQuantizer.codebook s) /\
  length (ivals ids) = numel (ishape ids) /\
  shape_of (VectorQuantizer.decode_ids s ids)
    = ishape ids ++ [width (VectorQuantizer.codebook s)] /\
  wf_tensor (VectorQuantizer.decode_ids s ids).
Proof.
  intros s ids.
  split; [apply ramp_codebook_rectangular|].
  split; [reflexivity|].
  exact (decode_ids_wellformed s ids ramp_codebook_rectangular eq_refl).
Defined.

(** ** The shape of a residual block, for any block *)

(** X6: a ResBlock whose convolutions keep the spatial extent and set the
    channel count, and whose normalisation and activation keep the shape,
    maps an array of shape (B, H, W, C) to one of shape (B, H, W, filters),
    for either value of use_conv_shortcut and whether or not C equals
    filters: the two summands of the last line have one shape. *)
Theorem resblock_output_shape {T : Type} (nn : layers_module T)
    (s : ResBlock.self T) (sc : scope) (x : T) (b h w c : nat) :
  (forall sc' f k bias y b' h' w' c',
     shape nn y = [b'; h'; w'; c'] ->
     shape nn (ResBlock.conv_fn s sc' f k (1, 1) bias y) = [b'; h'; w'; f]) ->
  (forall sc' y, shape nn (ResBlock.norm_fn s sc' y) = shape nn y) ->
  (forall y, shape nn (ResBlock.activation_fn s y) = shape nn y) ->
  (forall y z, shape nn y = shape nn z -> shape nn (add nn y z) = shape nn y) ->
  shape nn x = [b; h; w; c] ->
  shape nn (ResBlock.branch s sc x) = [b; h; w; ResBlock.filters s] /\
  shape nn (ResBlock.call nn s sc x) = [b; h; w; ResBlock.filters s].
Proof.
  intros Hconv Hnorm Hact Hadd Hx.
  assert (Hb : shape nn (ResBlock.branch s sc x) = [b; h; w; ResBlock.filters s]).
  { unfold ResBlock.branch. eapply Hconv. rewrite Hact, Hnorm.
    eapply Hconv. by rewrite Hact, Hnorm. }
  split; [exact Hb|].
  unfold ResBlock.call. rewrite Hx. cbn [List.last].
  destruct (Nat.eqb_spec c (ResBlock.filters s)) as [Hc|Hc]; cbn [negb].
  - rewrite Hadd; [done|]. by rewrite Hb, Hx, Hc.
  - destruct (ResBlock.use_conv_shortcut s);
      (rewrite Hadd; [done|]); rewrite Hb; symmetry; by eapply Hconv.
Qed.

Lemma resblock_output_shape_witness :
  let s := Sample.block in
  let nn := Sample.layers in
  let x := Sample.pixel Sample.half in
  (forall sc' f k bias y b' h' w' c',
     shape nn y = [b'; h'; w'; c'] ->
     shape nn (ResBlock.conv_fn s sc' f k (1, 1) bias y) = [b'; h'; w'; f]) /\
  (forall sc' y, shape nn (ResBlock.norm_fn s sc' y) = shape nn y) /\
  (forall y, shape nn (ResBlock.activation_fn s y) = shape nn y) /\
  (forall y z, shape nn y = shape nn z -> shape nn (add nn y z) = shape nn y) /\
  shape nn x = [1; 1; 1; 1] /\
  shape nn (ResBlock.branch s [] x) = [1; 1; 1; ResBlock.filters s] /\
  shape nn (ResBlock.call nn s [] x) = [1; 1; 1; ResBlock.filters s].
Proof.
  intros s nn x.
  assert (Hconv : forall sc' f k bias y b' h' w' c',
            shape nn y = [b'; h'; w'; c'] ->
            shape nn (ResBlock.conv_fn s sc' f k (1, 1) bias y) = [b'; h'; w'; f])
    by (intros; by eapply (shape_conv nn sample_layers_shape_laws)).
  assert (Hnorm : forall sc' y, shape nn (ResBlock.norm_fn s sc' y) = shape nn y)
    by done.
  assert (Hact : forall y, shape nn (ResBlock.activation_fn s y) = shape nn y)
    by done.
  assert (Hadd : forall y z, shape nn y = shape nn z ->
                             shape nn (add nn y z) = shape nn y)
    by (apply (shape_add nn sample_layers_shape_laws)).
  split; [exact Hconv|]. split; [exact Hnorm|]. split; [exact Hact|].
  split; [exact Hadd|]. split; [reflexivity|].
  exact (resblock_output_shape nn s [] x 1 1 1 1 Hconv Hnorm Hact Hadd eq_refl).
Defined.

(** ** The index grid of an image, and the image of an index grid *)

(** X7: encode_to_indices, given an image of shape (B, 16 H, 16 W, C) as
    an array or in a dictionary under "image", returns an index array of
    shape (B, H, W), one index per position of the feature grid, each in
    [0, codebook_size). *)
Theorem encode_to_indices_grid {R : Type}
    `{Scalar R} `{Inexact R} `{!Reduction R}
    (L : losses_module R) (s : VectorQuantizer.self R)
    (nn : layers_module (tensor R)) (vae : VQVAE.self)
    (inputs : py_input R (tensor R)) (image : tensor R) (b h w c : nat) :
  shape_laws nn ->
  (forall x, shape nn x = shape_of x) ->
  sed_shape L ->
  length (VectorQuantizer.codebook s) = VectorQuantizer.codebook_size ->
  wf_tensor (VQVAE.encoder nn vae image) ->
  shape_of image = [b; 16 * h; 16 * w; c] ->
  inputs = Plain image \/
    (exists d, inputs = Dict d /\ d !! "image" = Some (VTensor image)) ->
  exists ids : itensor,
    VQVAE.encode_to_indices nn (vector_quantizer L s) vae inputs = Some ids /\
    ishape ids = [b; h; w] /\
    length (ivals ids) = b * h * w /\
    in_range VectorQuantizer.codebook_size ids.
Proof.
  intros HS Hsh HL HK Hwf Himg Hin.
  set (z := VQVAE.encoder nn vae image) in *.
  assert (Hz : shape_of z = [b; h; w] ++ [Encoder.embedding_dim]).
  { rewrite <- Hsh. apply (encoder_shape nn HS _ _ _ b h w c). by rewrite Hsh. }
  unfold shape_of in Hz. apply app_inj_tail in Hz as [Hlead Hchan].
  exists (VectorQuantizer.encoding_indices L s z).
  split; [|split; [|split]].
  - assert (Hplain : VQVAE.encode_to_indices nn (vector_quantizer L s) vae (Plain image)
                     = Some (VectorQuantizer.encoding_indices L s z)).
    { unfold VQVAE.encode_to_indices. cbn [mbind option_bind vector_quantizer q_call].
      fold z. by rewrite (call_encoding_indices L s z). }
    destruct Hin as [->|(d & -> & Hd)]; [exact Hplain|].
    rewrite <- Hplain. unfold VQVAE.encode_to_indices. by rewrite Hd.
  - by rewrite <- Hlead.
  - rewrite (encoding_indices_length L HL s HK z), (proj1 Hwf), Hlead.
    cbn [numel fold_right]. lia.
  - by apply encoding_indices_range.
Qed.

Lemma encode_to_indices_grid_witness :
  let s := Sample.vq false Sample.wide_codebook in
  let vae := {| VQVAE.train := false |} in
  let d : gmap string (value F32.t) := {["image" := VTensor Sample.image]} in
  shape_laws Sample.layers /\
  (forall x, shape Sample.layers x = shape_of x) /\
  sed_shape Sample.losses /\
  length (VectorQuantizer.codebook s) = VectorQuantizer.codebook_size /\
  wf_tensor (VQVAE.encoder Sample.layers vae Sample.image) /\
  shape_of Sample.image = [1; 16 * 1; 16 * 1; 3] /\
  (Dict d = Plain Sample.image \/
    (exists d', Dict (A:=tensor F32.t) d = Dict d' /\
                d' !! "image" = Some (VTensor Sample.image))) /\
  exists ids : itensor,
    VQVAE.encode_to_indices Sample.layers (vector_quantizer Sample.losses s) vae
      (Dict d) = Some ids /\
    ishape ids = [1; 1; 1] /\
    length (ivals ids) = 1 * 1 * 1 /\
    in_range VectorQuantizer.codebook_size ids.
Proof.
  intros s vae d.
  assert (Hwf : wf_tensor (VQVAE.encoder Sample.layers vae Sample.image)).
  { split; [by vm_compute|]. vm_compute. by repeat constructor. }
  assert (Hin : Dict d = Plain Sample.image \/
            (exists d', Dict (A:=tensor F32.t) d = Dict d' /\
                        d' !! "image" = Some (VTensor Sample.image))).
  { right. exists d. split; [reflexivity|]. unfold d. apply lookup_singleton_eq. }
  split; [exact sample_layers_shape_laws|].
  split; [reflexivity|].
  split; [apply sample_losses_shape|].
  split; [vm_compute; reflexivity|].
  split; [exact Hwf|].
  split; [reflexivity|].
  split; [exact Hin|].
  exact (encode_to_indices_grid Sample.losses s Sample.layers vae (Dict d)
           Sample.image 1 1 1 3 sample_layers_shape_laws (fun x => eq_refl)
           sample_losses_shape eq_refl Hwf eq_refl Hin).
Defined.

(** X8: decode_from_indices maps an index array of shape (B, H, W), of
    any integer values, to an image of shape (B, 16 H, 16 W, 3): the lookup
    appends the codebook width as channel axis, and the decoder, with its
    four upsampling stages, ends in a convolution to output_dim = 3
    channels. *)
Theorem decode_from_indices_shape {R : Type}
    `{Scalar R} `{Inexact R} `{!Reduction R}
    (L : losses_module R) (s : VectorQuantizer.self R)
    (nn : layers_module (tensor R)) (vae : VQVAE.self)
    (ids : itensor) (b h w : nat) :
  shape_laws nn ->
  (forall x, shape nn x = shape_of x) ->
  ishape ids = [b; h; w] ->
  exists img : tensor R,
    VQVAE.decode_from_indices nn (vector_quantizer L s) vae (Plain ids) = Some img /\
    shape_of img = [b; 16 * h; 16 * w; 3].
Proof.
  intros HS Hsh Hids.
  eexists. split; [reflexivity|].
  rewrite <- Hsh. unfold VQVAE.decode, VQVAE.decoder.
  change 3 with (Decoder.output_dim
                   {| Decoder.train := VQVAE.train vae;
                      Decoder.output_dim := VQVAE.output_dim |}).
  apply (decoder_shape nn HS _ _ _ b h w (width (VectorQuantizer.codebook s))).
  rewrite Hsh. cbn [vector_quantizer q_decode_ids].
  unfold VectorQuantizer.decode_ids, jnp_take, shape_of. cbn [lead chan].
  by rewrite Hids.
Qed.

Lemma decode_from_indices_shape_witness :
  let s := Sample.vq false Sample.ramp_codebook in
  let vae := {| VQVAE.train := false |} in
  let ids := ITensor [1; 1; 2] [7%Z; 2000%Z] in
  shape_laws Sample.layers /\
  (forall x, shape Sample.layers x = shape_of x) /\
  ishape ids = [1; 1; 2] /\
  exists img : tensor F32.t,
    VQVAE.decode_from_indices Sample.layers (vector_quantizer Sample.losses s) vae
      (Plain ids) = Some img /\
    shape_of img = [1; 16 * 1; 16 * 2; 3].
Proof.
  intros s vae ids.
  split; [exact sample_layers_shape_laws|].
  split; [reflexivity|].
  split; [reflexivity|].
  exact (decode_from_indices_shape Sample.losses s Sample.layers vae ids 1 1 2
           sample_layers_shape_laws (fun x => eq_refl) eq_refl).
Defined.
